(** * ntfysender: the NtfySender client, embedded and verified

    Source: [_ntfysenderclass.py], class [NtfySender] with the methods
    [__init__], [__set_auth], [__set_header] and [send_msg].

    Python values are modelled as follows.
    - [str] is a list of Unicode code points (numbers below 0x110000),
      [bytes] a list of numbers below 256;
    - [Optional[str]] is [option str], [None] being Python's [None];
    - a [dict] used for the HTTP headers is a [gmap] from header names to
      optional strings, living in a heap of objects so that every reference
      to it sees its in-place updates;
    - a raised exception is the [Raise] outcome of the [M] monad. *)

From Stdlib Require Import NArith ZArith Ascii String List Lia ZifyBool.
From stdpp Require Import gmap strings list fin_maps.

Local Open Scope N_scope.

(** ** Python strings and bytes *)

Abbreviation str := (list N) (only parsing).
Abbreviation bytes := (list N) (only parsing).

(** A string literal of the source, as a list of code points. *)
Definition lit (s : string) : str :=
  N_of_ascii <$> list_ascii_of_string s.

Definition is_surrogate (c : N) : bool := (0xD800 <=? c) && (c <=? 0xDFFF).

(** Unicode scalar values: the code points UTF-8 can encode. *)
Definition scalar (c : N) : bool := (c <? 0x110000) && negb (is_surrogate c).

Definition unicode_text (s : str) : Prop := Forall (fun c => scalar c = true) s.

(** ** Exceptions and results *)

Inductive exn : Type :=
  | UnicodeEncodeError
  | UnicodeDecodeError
  | AttributeError
  | TypeError
  | RequestException (kind : N).

Inductive result (A : Type) : Type :=
  | Ok (a : A)
  | Raise (e : exn).
Arguments Ok {A} a.
Arguments Raise {A} e.

Definition rbind {A B} (r : result A) (k : A -> result B) : result B :=
  match r with
  | Ok a => k a
  | Raise e => Raise e
  end.

(** ** [str.encode()]: UTF-8, errors='strict' *)

Definition utf8_encode_char (c : N) : result bytes :=
  if c <? 0x80 then Ok [c]
  else if c <? 0x800 then
    Ok [N.lor 0xC0 (N.shiftr c 6); N.lor 0x80 (N.land c 0x3F)]
  else if c <? 0x10000 then
    if is_surrogate c then Raise UnicodeEncodeError
    else Ok [N.lor 0xE0 (N.shiftr c 12);
             N.lor 0x80 (N.land (N.shiftr c 6) 0x3F);
             N.lor 0x80 (N.land c 0x3F)]
  else if c <? 0x110000 then
    Ok [N.lor 0xF0 (N.shiftr c 18);
        N.lor 0x80 (N.land (N.shiftr c 12) 0x3F);
        N.lor 0x80 (N.land (N.shiftr c 6) 0x3F);
        N.lor 0x80 (N.land c 0x3F)]
  else Raise UnicodeEncodeError.

Fixpoint str_encode (s : str) : result bytes :=
  match s with
  | [] => Ok []
  | c :: s' =>
      rbind (utf8_encode_char c) (fun bs =>
      rbind (str_encode s') (fun bs' => Ok (bs ++ bs')))
  end.

(** ** [bytes.decode()]: UTF-8, errors='strict' *)

Definition is_cont (b : N) : bool := (0x80 <=? b) && (b <=? 0xBF).

Definition cont_bits (b : N) : N := N.land b 0x3F.

Fixpoint bytes_decode (bs : bytes) : result str :=
  match bs with
  | [] => Ok []
  | b0 :: r0 =>
      if b0 <? 0x80 then rbind (bytes_decode r0) (fun s => Ok (b0 :: s))
      else if b0 <? 0xC2 then Raise UnicodeDecodeError
      else if b0 <? 0xE0 then
        match r0 with
        | b1 :: r1 =>
            if is_cont b1 then
              rbind (bytes_decode r1) (fun s =>
                Ok (N.lor (N.shiftl (N.land b0 0x1F) 6) (cont_bits b1) :: s))
            else Raise UnicodeDecodeError
        | _ => Raise UnicodeDecodeError
        end
      else if b0 <? 0xF0 then
        match r0 with
        | b1 :: b2 :: r2 =>
            let c := N.lor (N.shiftl (N.land b0 0x0F) 12)
                       (N.lor (N.shiftl (cont_bits b1) 6) (cont_bits b2)) in
            if is_cont b1 && is_cont b2 && (0x800 <=? c) && negb (is_surrogate c)
            then rbind (bytes_decode r2) (fun s => Ok (c :: s))
            else Raise UnicodeDecodeError
        | _ => Raise UnicodeDecodeError
        end
      else if b0 <? 0xF5 then
        match r0 with
        | b1 :: b2 :: b3 :: r3 =>
            let c := N.lor (N.shiftl (N.land b0 0x07) 18)
                       (N.lor (N.shiftl (cont_bits b1) 12)
                          (N.lor (N.shiftl (cont_bits b2) 6) (cont_bits b3))) in
            if is_cont b1 && is_cont b2 && is_cont b3
               && (0x10000 <=? c) && (c <? 0x110000)
            then rbind (bytes_decode r3) (fun s => Ok (c :: s))
            else Raise UnicodeDecodeError
        | _ => Raise UnicodeDecodeError
        end
      else Raise UnicodeDecodeError
  end.

(** ** [base64.b64encode]: RFC 4648, standard alphabet, padded *)

Definition b64_alphabet : bytes :=
  lit "ABCDEFGHIJKLMNOPQRSTUVWXYZabcdefghijklmnopqrstuvwxyz0123456789+/".

Definition b64_pad : N := 61.

Definition b64_char (i : N) : N := nth (N.to_nat i) b64_alphabet b64_pad.

Fixpoint b64encode (bs : bytes) : bytes :=
  match bs with
  | [] => []
  | [a] =>
      [b64_char (N.shiftr a 2);
       b64_char (N.shiftl (N.land a 3) 4);
       b64_pad; b64_pad]
  | [a; b] =>
      [b64_char (N.shiftr a 2);
       b64_char (N.lor (N.shiftl (N.land a 3) 4) (N.shiftr b 4));
       b64_char (N.shiftl (N.land b 0xF) 2);
       b64_pad]
  | a :: b :: c :: rest =>
      b64_char (N.shiftr a 2)
      :: b64_char (N.lor (N.shiftl (N.land a 3) 4) (N.shiftr b 4))
      :: b64_char (N.lor (N.shiftl (N.land b 0xF) 2) (N.shiftr c 6))
      :: b64_char (N.land c 0x3F)
      :: b64encode rest
  end.

(** ** [base64.b64decode], the inverse the encoder is checked against *)

Definition b64_index (c : N) : option N :=
  if (65 <=? c) && (c <=? 90) then Some (c - 65)
  else if (97 <=? c) && (c <=? 122) then Some (c - 71)
  else if (48 <=? c) && (c <=? 57) then Some (c + 4)
  else if c =? 43 then Some 62
  else if c =? 47 then Some 63
  else None.

Fixpoint b64decode (cs : list N) : option (list N) :=
  match cs with
  | [] => Some []
  | c0 :: c1 :: c2 :: c3 :: rest =>
      match b64_index c0, b64_index c1 with
      | Some s0, Some s1 =>
          let a := N.lor (N.shiftl s0 2) (N.shiftr s1 4) in
          if (c2 =? b64_pad) && (c3 =? b64_pad) then
            match rest with [] => Some [a] | _ => None end
          else
            match b64_index c2 with
            | Some s2 =>
                let b := N.lor (N.shiftl (N.land s1 0xF) 4) (N.shiftr s2 2) in
                if c3 =? b64_pad then
                  match rest with [] => Some [a; b] | _ => None end
                else
                  match b64_index c3 with
                  | Some s3 =>
                      let c := N.lor (N.shiftl (N.land s2 3) 6) s3 in
                      match b64decode rest with
                      | Some bs => Some (a :: b :: c :: bs)
                      | None => None
                      end
                  | None => None
                  end
            | None => None
            end
      | _, _ => None
      end
  | _ => None
  end.

(** ** [json.dumps] on a dict of strings (ensure_ascii=True, default separators) *)

Definition hex_digit (d : N) : N :=
  nth (N.to_nat d) (lit "0123456789abcdef") 48.

(** ['{0:04x}'.format(n)] for [n < 0x10000]. *)
Definition hex4 (n : N) : str :=
  [hex_digit (n / 4096 mod 16); hex_digit (n / 256 mod 16);
   hex_digit (n / 16 mod 16); hex_digit (n mod 16)].

Definition u_escape (n : N) : str := 92 :: 117 :: hex4 n.

(** The replacement of one character by [py_encode_basestring_ascii]:
    characters from space to tilde other than the quote and the backslash
    stand for themselves, the rest is escaped. *)
Definition escape_char (c : N) : str :=
  if c =? 34 then [92; 34]
  else if c =? 92 then [92; 92]
  else if (32 <=? c) && (c <=? 126) then [c]
  else if c =? 8 then [92; 98]
  else if c =? 12 then [92; 102]
  else if c =? 10 then [92; 110]
  else if c =? 13 then [92; 114]
  else if c =? 9 then [92; 116]
  else if c <? 0x10000 then u_escape c
  else
    let n := c - 0x10000 in
    let s1 := N.lor 0xD800 (N.land (N.shiftr n 10) 0x3FF) in
    let s2 := N.lor 0xDC00 (N.land n 0x3FF) in
    u_escape s1 ++ u_escape s2.

Definition encode_basestring_ascii (s : str) : str :=
  34 :: concat (escape_char <$> s) ++ [34].

Definition dumps_item (kv : str * str) : str :=
  encode_basestring_ascii kv.1 ++ lit ": " ++ encode_basestring_ascii kv.2.

Fixpoint join (sep : str) (parts : list str) : str :=
  match parts with
  | [] => []
  | [p] => p
  | p :: ps => p ++ sep ++ join sep ps
  end.

Definition json_dumps (d : list (str * str)) : str :=
  lit "{" ++ join (lit ", ") (dumps_item <$> d) ++ lit "}".

(** Writes a text with single quotes for the double quotes it stands for. *)
Definition dq (s : str) : str := (fun c => if c =? 39 then 34 else c) <$> s.

(** ** [json.loads], restricted to objects whose members are strings *)

Definition hex_value (c : N) : option N :=
  if (48 <=? c) && (c <=? 57) then Some (c - 48)
  else if (97 <=? c) && (c <=? 102) then Some (c - 87)
  else if (65 <=? c) && (c <=? 70) then Some (c - 55)
  else None.

(** [_decode_uXXXX]: four hexadecimal digits, read as [int(esc, 16)]. *)
Definition decode_uXXXX (h1 h2 h3 h4 : N) : option N :=
  match hex_value h1, hex_value h2, hex_value h3, hex_value h4 with
  | Some a, Some b, Some c, Some d => Some (((a * 16 + b) * 16 + c) * 16 + d)
  | _, _, _, _ => None
  end.

(** The table [BACKSLASH] of the decoder. *)
Definition backslash_char (e : N) : option N :=
  if e =? 34 then Some 34
  else if e =? 92 then Some 92
  else if e =? 47 then Some 47
  else if e =? 98 then Some 8
  else if e =? 102 then Some 12
  else if e =? 110 then Some 10
  else if e =? 114 then Some 13
  else if e =? 116 then Some 9
  else None.

Definition is_high (u : N) : bool := (0xD800 <=? u) && (u <=? 0xDBFF).
Definition is_low (u : N) : bool := (0xDC00 <=? u) && (u <=? 0xDFFF).

Definition join_surrogates (uni uni2 : N) : N :=
  0x10000 + N.lor (N.shiftl (uni - 0xD800) 10) (uni2 - 0xDC00).

(** [py_scanstring], strict: reads a string from just after its opening
    quote and returns it with the text that follows its closing quote.
    [acc] holds the characters read so far, last first. *)
Fixpoint scanstring (s : str) (acc : str) : option (str * str) :=
  match s with
  | [] => None
  | c :: r =>
      if c =? 34 then Some (rev acc, r)
      else if c =? 92 then
        match r with
        | [] => None
        | e :: r1 =>
            if e =? 117 then
              match r1 with
              | h1 :: h2 :: h3 :: h4 :: r2 =>
                  match decode_uXXXX h1 h2 h3 h4 with
                  | None => None
                  | Some uni =>
                      if is_high uni then
                        match r2 with
                        | b :: u :: g1 :: g2 :: g3 :: g4 :: r3 =>
                            if (b =? 92) && (u =? 117) then
                              match decode_uXXXX g1 g2 g3 g4 with
                              | None => None
                              | Some uni2 =>
                                  if is_low uni2
                                  then scanstring r3 (join_surrogates uni uni2 :: acc)
                                  else scanstring r2 (uni :: acc)
                              end
                            else scanstring r2 (uni :: acc)
                        | _ => scanstring r2 (uni :: acc)
                        end
                      else scanstring r2 (uni :: acc)
                  end
              | _ => None
              end
            else
              match backslash_char e with
              | Some ch => scanstring r1 (ch :: acc)
              | None => None
              end
        end
      else if c <? 32 then None
      else scanstring r (c :: acc)
  end.

Definition is_ws (c : N) : bool :=
  (c =? 32) || (c =? 9) || (c =? 10) || (c =? 13).

Fixpoint skip_ws (s : str) : str :=
  match s with
  | c :: r => if is_ws c then skip_ws r else s
  | [] => []
  end.

(** The members of an object from the opening quote of a key on: the pairs
    read, first member first, and the text after the closing brace. *)
Fixpoint scan_members (fuel : nat) (s : str) (acc : list (str * str))
  : option (list (str * str) * str) :=
  match fuel, s with
  | S fuel', q :: r =>
      if q =? 34 then
        '(k, r1) ← scanstring r [];
        match skip_ws r1 with
        | colon :: r2 =>
            if colon =? 58 then
              match skip_ws r2 with
              | q' :: r3 =>
                  if q' =? 34 then
                    '(v, r4) ← scanstring r3 [];
                    match skip_ws r4 with
                    | sep :: r5 =>
                        if sep =? 44
                        then scan_members fuel' (skip_ws r5) ((k, v) :: acc)
                        else if sep =? 125 then Some (rev ((k, v) :: acc), r5)
                        else None
                    | [] => None
                    end
                  else None
              | [] => None
              end
            else None
        | [] => None
        end
      else None
  | _, _ => None
  end.

Definition json_loads (s : str) : option (list (str * str)) :=
  match skip_ws s with
  | brace :: r =>
      if brace =? 123 then
        match skip_ws r with
        | c :: r' =>
            if c =? 125 then
              match skip_ws r' with [] => Some [] | _ => None end
            else
              '(ms, rest) ← scan_members (length s) (c :: r') [];
              match skip_ws rest with [] => Some ms | _ => None end
        | [] => None
        end
      else None
  | [] => None
  end.

(** [d[key]] on the result of [json_loads]. *)
Fixpoint assoc (key : str) (d : list (str * str)) : option str :=
  match d with
  | [] => None
  | (k, v) :: d' => if decide (k = key) then Some v else assoc key d'
  end.

(** ** The object heap, the wire and the monad of Python computations *)

Abbreviation loc := positive (only parsing).

(** The instance attributes set by [__init__]. *)
Record NtfySender : Type := {
  server_url : str;
  default_topic : str;
  _auth : option str;
  headers : loc
}.

Inductive obj : Type :=
  | Dict (d : gmap string (option str))
  | Instance (o : NtfySender).

(** What one call of [requests.post] is given; [req_headers] is the content
    of the dict object passed as [headers=] when the call is made. *)
Record request : Type := {
  url : str;
  req_headers : gmap string (option str);
  data : str;
  timeout : Z
}.

(** [requests.post] either returns a response (whatever its status code)
    or raises. *)
Inductive post_outcome : Type :=
  | Response (status_code : Z)
  | Fails (e : exn).

(** The state of a run: the objects, and the requests handed to
    [requests.post] so far, oldest first. *)
Record world : Type := {
  heap : gmap positive obj;
  sent : list request
}.

(** A Python computation: it ends with a value or an exception, and
    whatever it did to the world before stays done. *)
Definition M (A : Type) : Type := world -> result A * world.

#[global] Instance M_ret : MRet M := fun A a w => (Ok a, w).

#[global] Instance M_bind : MBind M := fun A B k m w =>
  match m w with
  | (Ok a, w') => k a w'
  | (Raise e, w') => (Raise e, w')
  end.

Definition lift {A} (r : result A) : M A := fun w => (r, w).

(** Object creation, at an address not in use. *)
Definition new_object (o : obj) : M loc := fun w =>
  let l := fresh (dom (heap w)) in
  (Ok l, {| heap := <[l := o]> (heap w); sent := sent w |}).

(** The instance behind [self], for an attribute access. *)
Definition load_instance (self : loc) : M NtfySender := fun w =>
  match heap w !! self with
  | Some (Instance o) => (Ok o, w)
  | _ => (Raise AttributeError, w)
  end.

(** [d[k] = v] on the dict object at [l]. *)
Definition dict_setitem (l : loc) (k : string) (v : option str) : M unit := fun w =>
  match heap w !! l with
  | Some (Dict d) =>
      (Ok tt, {| heap := <[l := Dict (<[k := v]> d)]> (heap w); sent := sent w |})
  | _ => (Raise TypeError, w)
  end.

Section Client.

(** The network and the server: the outcome of a [requests.post] call given
    the requests issued so far, this one last. *)
Variable network : list request -> post_outcome.

(** [requests.post(url=, headers=, data=, timeout=)]: the call is logged
    with the content the headers dict has at that moment, and the network
    decides whether it returns a response, whose status code is the result
    here, or raises. *)
Definition requests_post (url : str) (headers : loc) (data : str) (timeout : Z)
  : M Z := fun w =>
  match heap w !! headers with
  | Some (Dict d) =>
      let log := sent w ++
        [{| url := url; req_headers := d; data := data; timeout := timeout |}] in
      let w' := {| heap := heap w; sent := log |} in
      match network log with
      | Response status_code => (Ok status_code, w')
      | Fails e => (Raise e, w')
      end
  | _ => (Raise TypeError, w)
  end.

(** ** class NtfySender *)

(** [__set_auth] computes the value it assigns to [self._auth]: None when
    a credential is None, and otherwise
    ["Basic " + base64.b64encode(f"{ntfy_user}:{ntfy_password}".encode()).decode()],
    where [encode] may raise. *)
Definition __set_auth (ntfy_user ntfy_password : option str) : result (option str) :=
  match ntfy_user, ntfy_password with
  | Some user, Some password =>
      rbind (str_encode (user ++ lit ":" ++ password)) (fun b =>
      rbind (bytes_decode (b64encode b)) (fun s =>
      Ok (Some (lit "Basic " ++ s))))
  | _, _ => Ok None
  end.

(** [__set_header] creates the dict it assigns to [self.headers], and puts
    the Authorization entry in it when [self._auth] is not None. *)
Definition __set_header (auth : option str) : M loc :=
  h ← new_object (Dict ∅);
  match auth with
  | Some a => dict_setitem h "Authorization" (Some a)
  | None => mret tt
  end;;
  mret h.

(** [__init__] returns the new instance. The instance is stored once the
    values of its four attributes are known: when [__set_auth] raises, the
    object under construction is lost to the caller, and no object is left
    in the heap. *)
Definition __init__ (server_url default_topic : str)
    (ntfy_user ntfy_password : option str) : M loc :=
  auth ← lift (__set_auth ntfy_user ntfy_password);
  h ← __set_header auth;
  new_object (Instance {| server_url := server_url;
                          default_topic := default_topic;
                          _auth := auth;
                          headers := h |}).

(** [self.attr] *)
Definition getattr {A} (attr : NtfySender -> A) (self : loc) : M A :=
  o ← load_instance self; mret (attr o).

(** [send_msg], statement by statement. The response [requests.post]
    returns is dropped: the method returns None. *)
Definition send_msg (self : loc) (title message : str)
    (link_url topic tags icon : option str) (timeout : Z) : M unit :=
  topic_send ← match topic with
               | None => getattr default_topic self
               | Some t => mret t
               end;
  h ← getattr headers self; dict_setitem h "Title" (Some title);;
  h ← getattr headers self; dict_setitem h "Click" link_url;;
  match tags with
  | Some t => h ← getattr headers self; dict_setitem h "Tags" (Some t)
  | None => mret tt
  end;;
  match icon with
  | Some i => h ← getattr headers self; dict_setitem h "Icon" (Some i)
  | None => mret tt
  end;;
  u ← getattr server_url self;
  h ← getattr headers self;
  requests_post u h
    (json_dumps [(lit "topic", topic_send); (lit "message", message)])
    timeout;;
  mret tt.

(** The arguments of one [send_msg] call. *)
Record call : Type := {
  title : str;
  message : str;
  link_url : option str;
  topic : option str;
  tags : option str;
  icon : option str;
  timeout_s : Z
}.

(** [send_msg(title, message)]: every optional argument left out. *)
Definition plain_call (title message : str) : call :=
  {| title := title; message := message; link_url := None; topic := None;
     tags := None; icon := None; timeout_s := 10 |}.

Definition send (self : loc) (c : call) : M unit :=
  send_msg self (title c) (message c) (link_url c) (topic c) (tags c) (icon c)
    (timeout_s c).

(** A caller that sends one notification after the other on the same client
    and goes on whatever each call returns or raises. *)
Fixpoint send_all (self : loc) (cs : list call) (w : world) : world :=
  match cs with
  | [] => w
  | c :: cs' => send_all self cs' (send self c w).2
  end.

End Client.

(** ** Observations on a world *)

(** The instance stored at [self], if [self] is an [NtfySender]. *)
Definition instance_at (w : world) (self : loc) : option NtfySender :=
  match heap w !! self with
  | Some (Instance o) => Some o
  | _ => None
  end.

(** The dict object stored at [l]. *)
Definition dict_at (w : world) (l : loc) : option (gmap string (option str)) :=
  match heap w !! l with
  | Some (Dict d) => Some d
  | _ => None
  end.

(** [self.headers], the content of the client's headers mapping. *)
Definition headers_of (w : world) (self : loc) : option (gmap string (option str)) :=
  o ← instance_at w self; dict_at w (headers o).

(** The requests issued between the worlds [w0] and [w]. *)
Definition sent_since (w0 w : world) : list request :=
  drop (length (sent w0)) (sent w).

(** [self] is a client: an instance whose [headers] attribute is a dict. *)
Definition client (w : world) (self : loc) (o : NtfySender)
    (d : gmap string (option str)) : Prop :=
  heap w !! self = Some (Instance o) /\ heap w !! headers o = Some (Dict d).

(** ** What a call amounts to

    The effect of [send_msg] on the headers mapping and the request it
    issues, as plain functions of the call and of the mapping it finds;
    [send_spec] proves that [send] does exactly this. *)

(** The content of the headers mapping once a call has written its
    arguments into a mapping that held [d]. *)
Definition headers_after (c : call) (d : gmap string (option str))
  : gmap string (option str) :=
  let d1 := <["Click" := link_url c]> (<["Title" := Some (title c)]> d) in
  let d2 := match tags c with Some t => <["Tags" := Some t]> d1 | None => d1 end in
  match icon c with Some i => <["Icon" := Some i]> d2 | None => d2 end.

(** The request a call issues on the client [o] whose mapping held [d]. *)
Definition request_of (o : NtfySender) (c : call) (d : gmap string (option str))
  : request :=
  {| url := server_url o;
     req_headers := headers_after c d;
     data := json_dumps
               [(lit "topic", match topic c with None => default_topic o | Some t => t end);
                (lit "message", message c)];
     timeout := timeout_s c |}.

(** The strings [json.dumps] is given are texts. *)
Definition text_pair (kv : str * str) : Prop :=
  unicode_text kv.1 /\ unicode_text kv.2.

(** The headers mapping [__set_header] builds. *)
Definition base_headers (auth : option str) : gmap string (option str) :=
  match auth with
  | Some a => <["Authorization" := Some a]> ∅
  | None => ∅
  end.

(** The mapping after a run of calls, and the requests the run issues. *)
Fixpoint headers_after_all (cs : list call) (d : gmap string (option str))
  : gmap string (option str) :=
  match cs with
  | [] => d
  | c :: cs' => headers_after_all cs' (headers_after c d)
  end.

Fixpoint requests_of (o : NtfySender) (cs : list call)
    (d : gmap string (option str)) : list request :=
  match cs with
  | [] => []
  | c :: cs' => request_of o c d :: requests_of o cs' (headers_after c d)
  end.

(** The argument most recently given among the calls [cs] (first call
    first) for the optional parameter [f], if any call gave one. *)
Fixpoint last_given (f : call -> option str) (cs : list call) : option str :=
  match cs with
  | [] => None
  | c :: cs' =>
      match last_given f cs' with
      | Some t => Some t
      | None => f c
      end
  end.

(** An HTTP call that failed in the sense of the specification: an
    exception, or a response whose status is not 2xx. *)
Definition http_failure (out : post_outcome) : Prop :=
  match out with
  | Fails _ => True
  | Response status_code => ~ (200 <= status_code < 300)%Z
  end.

(** ** Sample data *)

Definition empty_world : world := {| heap := ∅; sent := [] |}.

(** A server that answers every request with the given status. *)
Definition answers (status_code : Z) : list request -> post_outcome :=
  fun _ => Response status_code.

(** A network on which every request times out. *)
Definition times_out : list request -> post_outcome :=
  fun _ => Fails (RequestException 1).

(** An anonymous client for [https://ntfy.sh/], topic [alerts], as
    [__init__] builds it in the empty world. *)
Definition sample_client : NtfySender :=
  {| server_url := lit "https://ntfy.sh/"; default_topic := lit "alerts";
     _auth := None; headers := 1%positive |}.

Definition sample_world : world :=
  {| heap := <[2%positive := Instance sample_client]> (<[1%positive := Dict ∅]> ∅);
     sent := [] |}.

Definition disk_full : call := plain_call (lit "Disk Full") (lit "90% used").

Definition tagged : call :=
  {| title := lit "Backup"; message := lit "done"; link_url := None;
     topic := Some (lit "jobs"); tags := Some (lit "warning");
     icon := Some (lit "https://ntfy.sh/icon.png"); timeout_s := 10 |}.

(** ** Notions for the further properties *)

(** The characters from space to tilde. *)
Definition printable (c : N) : bool := (32 <=? c) && (c <=? 126).

Abbreviation all_printable := (Forall (fun ch => printable ch = true)).

(** A username without a colon, as HTTP Basic authentication asks. *)
Definition no_colon (s : str) : Prop := 58 ∉ s.

(** The header names [send_msg] assigns. *)
Definition call_header_names : list string :=
  ["Title"; "Click"; "Tags"; "Icon"]%string.

(** The world once bob has a client of his own, built in the empty world. *)
Definition bob_world : world :=
  (__init__ (lit "https://ntfy.sh/") (lit "alerts")
     (Some (lit "bob")) (Some (lit "secret")) empty_world).2.

(** The world once a second client, with credentials, is built next to the
    sample client. *)
Definition two_clients_world : world :=
  (__init__ (lit "https://ntfy.example/") (lit "ops")
     (Some (lit "bob")) (Some (lit "secret")) sample_world).2.

(** A call whose message is not ASCII: an emoji, a line feed, an e acute. *)
Definition emoji_call : call := plain_call (lit "Party") [0x1F600; 10; 0xE9].

(** A call that gives other tags and another icon than [tagged]. *)
Definition retagged : call :=
  {| title := lit "Restore"; message := lit "started"; link_url := Some (lit "https://ntfy.sh/r");
     topic := None; tags := Some (lit "tada"); icon := Some (lit "https://ntfy.sh/r.png");
     timeout_s := 3 |}.

(** ** Tactics *)

(** Linear arithmetic with divisions and remainders by constants. *)
Ltac euclid := zify; Z.to_euclidean_division_equations; lia.

(** Unfolds a computation of [M] down to its state-passing function. *)
Ltac unfold_M :=
  unfold send, send_msg, getattr, load_instance, dict_setitem, requests_post,
    new_object, lift, mbind, M_bind, mret, M_ret; cbn [heap sent].

(** * Properties *)

(** ** The library models on known values *)

Example b64encode_bob :
  rbind (str_encode (lit "bob:secret")) (fun bs => bytes_decode (b64encode bs))
  = Ok (lit "Ym9iOnNlY3JldA==").
Proof. vm_compute. reflexivity. Qed.

Example json_dumps_alerts :
  json_dumps [(lit "topic", lit "alerts"); (lit "message", lit "90% used")]
  = dq (lit "{'topic': 'alerts', 'message': '90% used'}").
Proof. vm_compute. reflexivity. Qed.

Example json_loads_alerts :
  json_loads (dq (lit "{'topic': 'alerts', 'message': '90% used'}"))
  = Some [(lit "topic", lit "alerts"); (lit "message", lit "90% used")].
Proof. vm_compute. reflexivity. Qed.

Example json_roundtrip_escapes :
  json_loads (json_dumps [(lit "topic", [34; 92; 10; 0x1F600; 0xE9; 127]);
                          (lit "message", [])])
  = Some [(lit "topic", [34; 92; 10; 0x1F600; 0xE9; 127]); (lit "message", [])].
Proof. vm_compute. reflexivity. Qed.

Example encode_basestring_ascii_escapes :
  encode_basestring_ascii [0x1F600; 0xE9; 10; 34; 65; 127]
  = dq (lit "'\ud83d\ude00\u00e9\n\'A\u007f'").
Proof. vm_compute. reflexivity. Qed.

(** ** Bit operations as arithmetic *)

Lemma land_shiftl_low a k b : b < 2 ^ k -> N.land (N.shiftl a k) b = 0.
Proof.
  intros Hb. apply N.bits_inj. intros n.
  rewrite N.land_spec, N.bits_0.
  destruct (N.lt_ge_cases n k) as [Hn|Hn].
  - rewrite N.shiftl_spec_low by done. reflexivity.
  - rewrite <- (N.mod_small b (2 ^ k)) by done.
    rewrite N.mod_pow2_bits_high by done. apply andb_false_r.
Qed.

Lemma lor_shiftl_low a k b : b < 2 ^ k -> N.lor (N.shiftl a k) b = a * 2 ^ k + b.
Proof.
  intros Hb. rewrite <- N.lxor_lor by (by apply land_shiftl_low).
  rewrite <- N.add_nocarry_lxor by (by apply land_shiftl_low).
  by rewrite N.shiftl_mul_pow2.
Qed.

Lemma lor_aligned c k b : c mod 2 ^ k = 0 -> b < 2 ^ k -> N.lor c b = c + b.
Proof.
  intros Hc Hb.
  assert (E : c = N.shiftl (c / 2 ^ k) k).
  { rewrite N.shiftl_mul_pow2. rewrite (N.div_mod c (2 ^ k)) at 1 by lia. lia. }
  rewrite E at 1. rewrite lor_shiftl_low by done. rewrite <- N.shiftl_mul_pow2. by rewrite <- E.
Qed.

(** ** UTF-8: decoding undoes encoding *)

Lemma land_0x3F x : N.land x 0x3F = x mod 64.
Proof. change 0x3F with (N.ones 6). by rewrite N.land_ones. Qed.

Lemma utf8_bytes c :
  c < 0x110000 ->
  N.lor 0x80 (N.land c 0x3F) = 128 + c mod 64
  /\ N.lor 0x80 (N.land (N.shiftr c 6) 0x3F) = 128 + c / 64 mod 64
  /\ N.lor 0x80 (N.land (N.shiftr c 12) 0x3F) = 128 + c / 4096 mod 64
  /\ (c < 0x800 -> N.lor 0xC0 (N.shiftr c 6) = 192 + c / 64)
  /\ (c < 0x10000 -> N.lor 0xE0 (N.shiftr c 12) = 224 + c / 4096)
  /\ N.lor 0xF0 (N.shiftr c 18) = 240 + c / 262144.
Proof.
  intros Hc. rewrite !land_0x3F, !N.shiftr_div_pow2.
  change (2 ^ 6) with 64. change (2 ^ 12) with 4096. change (2 ^ 18) with 262144.
  repeat split; intros.
  - apply (lor_aligned _ 6); [done | cbn; euclid].
  - apply (lor_aligned _ 6); [done | cbn; euclid].
  - apply (lor_aligned _ 6); [done | cbn; euclid].
  - apply (lor_aligned _ 5); [done | cbn; euclid].
  - apply (lor_aligned _ 4); [done | cbn; euclid].
  - apply (lor_aligned _ 3); [done | cbn; euclid].
Qed.

Lemma utf8_join2 b0 b1 :
  192 <= b0 < 224 -> 128 <= b1 < 192 ->
  N.lor (N.shiftl (N.land b0 0x1F) 6) (cont_bits b1) = (b0 - 192) * 64 + (b1 - 128).
Proof.
  intros H0 H1. unfold cont_bits. rewrite land_0x3F.
  change 0x1F with (N.ones 5). rewrite N.land_ones.
  rewrite lor_shiftl_low by (cbn; euclid). cbn. euclid.
Qed.

Lemma utf8_join3 b0 b1 b2 :
  224 <= b0 < 240 -> 128 <= b1 < 192 -> 128 <= b2 < 192 ->
  N.lor (N.shiftl (N.land b0 0x0F) 12)
    (N.lor (N.shiftl (cont_bits b1) 6) (cont_bits b2))
  = (b0 - 224) * 4096 + (b1 - 128) * 64 + (b2 - 128).
Proof.
  intros H0 H1 H2. unfold cont_bits. rewrite !land_0x3F.
  change 0x0F with (N.ones 4). rewrite N.land_ones.
  rewrite (lor_shiftl_low _ 6) by (cbn; euclid).
  rewrite lor_shiftl_low by (cbn; euclid). cbn. euclid.
Qed.

Lemma utf8_join4 b0 b1 b2 b3 :
  240 <= b0 < 248 -> 128 <= b1 < 192 -> 128 <= b2 < 192 -> 128 <= b3 < 192 ->
  N.lor (N.shiftl (N.land b0 0x07) 18)
    (N.lor (N.shiftl (cont_bits b1) 12)
       (N.lor (N.shiftl (cont_bits b2) 6) (cont_bits b3)))
  = (b0 - 240) * 262144 + (b1 - 128) * 4096 + (b2 - 128) * 64 + (b3 - 128).
Proof.
  intros H0 H1 H2 H3. unfold cont_bits. rewrite !land_0x3F.
  change 0x07 with (N.ones 3). rewrite N.land_ones.
  rewrite (lor_shiftl_low _ 6) by (cbn; euclid).
  rewrite (lor_shiftl_low _ 12) by (cbn; euclid).
  rewrite lor_shiftl_low by (cbn; euclid). cbn. euclid.
Qed.

Lemma bytes_decode_char c bs r :
  utf8_encode_char c = Ok bs ->
  bytes_decode (bs ++ r) = rbind (bytes_decode r) (fun s => Ok (c :: s)).
Proof.
  unfold utf8_encode_char.
  destruct (N.ltb_spec c 0x80) as [H1|H1].
  { intros [= <-]. cbn [app bytes_decode]. by replace (c <? 0x80) with true by lia. }
  destruct (N.ltb_spec c 0x800) as [H2|H2].
  { intros [= <-]. destruct (utf8_bytes c) as (-> & _ & _ & E & _); [lia|]. rewrite E by done.
    cbn [app bytes_decode].
    replace (192 + c / 64 <? 0x80) with false by euclid.
    replace (192 + c / 64 <? 0xC2) with false by euclid.
    replace (192 + c / 64 <? 0xE0) with true by euclid.
    replace (is_cont (128 + c mod 64)) with true by (unfold is_cont; euclid).
    rewrite utf8_join2 by euclid.
    by replace ((192 + c / 64 - 192) * 64 + (128 + c mod 64 - 128)) with c by euclid. }
  destruct (N.ltb_spec c 0x10000) as [H3|H3].
  { destruct (is_surrogate c) eqn:Hs; [done|]. intros [= <-].
    destruct (utf8_bytes c) as (-> & -> & _ & _ & E & _); [lia|]. rewrite E by done.
    cbn [app bytes_decode]. cbv zeta.
    replace (224 + c / 4096 <? 0x80) with false by euclid.
    replace (224 + c / 4096 <? 0xC2) with false by euclid.
    replace (224 + c / 4096 <? 0xE0) with false by euclid.
    replace (224 + c / 4096 <? 0xF0) with true by euclid.
    replace (is_cont (128 + c mod 64)) with true by (unfold is_cont; euclid).
    replace (is_cont (128 + c / 64 mod 64)) with true by (unfold is_cont; euclid).
    rewrite utf8_join3 by euclid.
    replace ((224 + c / 4096 - 224) * 4096 + (128 + c / 64 mod 64 - 128) * 64
             + (128 + c mod 64 - 128)) with c by euclid.
    rewrite Hs. by replace (0x800 <=? c) with true by lia. }
  destruct (N.ltb_spec c 0x110000) as [H4|H4]; [|done].
  intros [= <-]. destruct (utf8_bytes c) as (-> & -> & -> & _ & _ & ->); [lia|].
  cbn [app bytes_decode]. cbv zeta.
  replace (240 + c / 262144 <? 0x80) with false by euclid.
  replace (240 + c / 262144 <? 0xC2) with false by euclid.
  replace (240 + c / 262144 <? 0xE0) with false by euclid.
  replace (240 + c / 262144 <? 0xF0) with false by euclid.
  replace (240 + c / 262144 <? 0xF5) with true by euclid.
  replace (is_cont (128 + c mod 64)) with true by (unfold is_cont; euclid).
  replace (is_cont (128 + c / 64 mod 64)) with true by (unfold is_cont; euclid).
  replace (is_cont (128 + c / 4096 mod 64)) with true by (unfold is_cont; euclid).
  rewrite utf8_join4 by euclid.
  replace ((240 + c / 262144 - 240) * 262144 + (128 + c / 4096 mod 64 - 128) * 4096
           + (128 + c / 64 mod 64 - 128) * 64 + (128 + c mod 64 - 128)) with c by euclid.
  replace (0x10000 <=? c) with true by lia. by replace (c <? 0x110000) with true by lia.
Qed.

Lemma bytes_decode_encode s bs : str_encode s = Ok bs -> bytes_decode bs = Ok s.
Proof.
  revert bs. induction s as [|c s IH]; intros bs; cbn [str_encode].
  - by intros [= <-].
  - destruct (utf8_encode_char c) as [bc|] eqn:Hc; [|done]. cbn [rbind].
    destruct (str_encode s) as [bs'|]; [|done]. intros [= <-].
    by rewrite (bytes_decode_char _ _ _ Hc), (IH _ eq_refl).
Qed.

Example str_encode_samples :
  str_encode [0x41; 0xE9; 0x20AC; 0x1F600]
  = Ok [0x41; 0xC3; 0xA9; 0xE2; 0x82; 0xAC; 0xF0; 0x9F; 0x98; 0x80]
  /\ str_encode [0x41; 0xD800] = Raise UnicodeEncodeError.
Proof. by vm_compute. Qed.

(** ** Base64: decoding undoes encoding *)

Lemma list_ind3 {A} (P : list A -> Prop) :
  P [] -> (forall a, P [a]) -> (forall a b, P [a; b]) ->
  (forall a b c r, P r -> P (a :: b :: c :: r)) ->
  forall l, P l.
Proof.
  intros H0 H1 H2 H3.
  fix IH 1. intros [|a [|b [|c r]]]; [done..|]. apply H3, IH.
Qed.

Lemma b64_index_char i : i < 64 -> b64_index (b64_char i) = Some i /\ b64_char i <> b64_pad.
Proof.
  intros Hi. rewrite <- (N2Nat.id i) at 2. unfold b64_char.
  assert (H : (N.to_nat i < 64)%nat) by lia. revert H.
  generalize (N.to_nat i). intros n Hn.
  do 64 (destruct n as [|n]; [by split|]). lia.
Qed.

Lemma sextets a b c :
  a < 256 -> b < 256 -> c < 256 ->
  N.shiftr a 2 = a / 4
  /\ N.lor (N.shiftl (N.land a 3) 4) (N.shiftr b 4) = a mod 4 * 16 + b / 16
  /\ N.lor (N.shiftl (N.land b 0xF) 2) (N.shiftr c 6) = b mod 16 * 4 + c / 64
  /\ N.land c 0x3F = c mod 64
  /\ N.shiftl (N.land a 3) 4 = a mod 4 * 16
  /\ N.shiftl (N.land b 0xF) 2 = b mod 16 * 4.
Proof.
  intros Ha Hb Hc.
  rewrite !N.shiftr_div_pow2, !N.shiftl_mul_pow2.
  change 3 with (N.ones 2). change 0xF with (N.ones 4). change 0x3F with (N.ones 6).
  rewrite !N.land_ones.
  rewrite <- !N.shiftl_mul_pow2.
  rewrite !lor_shiftl_low by (cbn; euclid).
  rewrite !N.shiftl_mul_pow2. by cbn.
Qed.

Lemma octets s0 s1 s2 s3 :
  s0 < 64 -> s1 < 64 -> s2 < 64 -> s3 < 64 ->
  N.lor (N.shiftl s0 2) (N.shiftr s1 4) = s0 * 4 + s1 / 16
  /\ N.lor (N.shiftl (N.land s1 0xF) 4) (N.shiftr s2 2) = s1 mod 16 * 16 + s2 / 4
  /\ N.lor (N.shiftl (N.land s2 3) 6) s3 = s2 mod 4 * 64 + s3.
Proof.
  intros H0 H1 H2 H3.
  rewrite !N.shiftr_div_pow2.
  change 3 with (N.ones 2). change 0xF with (N.ones 4).
  rewrite !N.land_ones.
  rewrite !lor_shiftl_low by (cbn; euclid). by cbn.
Qed.

Lemma b64decode_group c0 c1 c2 c3 rest s0 s1 s2 s3 :
  b64_index c0 = Some s0 -> b64_index c1 = Some s1 ->
  b64_index c2 = Some s2 -> b64_index c3 = Some s3 ->
  c2 <> b64_pad -> c3 <> b64_pad ->
  b64decode (c0 :: c1 :: c2 :: c3 :: rest) =
    match b64decode rest with
    | Some bs =>
        Some (N.lor (N.shiftl s0 2) (N.shiftr s1 4)
              :: N.lor (N.shiftl (N.land s1 0xF) 4) (N.shiftr s2 2)
              :: N.lor (N.shiftl (N.land s2 3) 6) s3 :: bs)
    | None => None
    end.
Proof.
  intros E0 E1 E2 E3 P2 P3. cbn [b64decode]. rewrite E0, E1, E2, E3.
  apply N.eqb_neq in P2, P3. by rewrite P2, P3.
Qed.

Lemma b64decode_encode bs :
  Forall (fun b => b < 256) bs -> b64decode (b64encode bs) = Some bs.
Proof.
  induction bs as [|a|a b|a b c r IH] using list_ind3; intros Hbs.
  - reflexivity.
  - apply Forall_cons in Hbs as [Ha _].
    destruct (sextets a 0 0 Ha) as (E0 & _ & _ & _ & E1 & _); [lia..|].
    cbn [b64encode]. rewrite E0, E1.
    destruct (b64_index_char (a / 4)) as [I0 _]; [euclid|].
    destruct (b64_index_char (a mod 4 * 16)) as [I1 _]; [euclid|].
    cbn [b64decode]. rewrite I0, I1. change (b64_pad =? b64_pad) with true.
    cbn [andb]. destruct (octets (a / 4) (a mod 4 * 16) 0 0) as (-> & _); [euclid..|].
    do 2 f_equal. euclid.
  - apply Forall_cons in Hbs as [Ha Hbs]. apply Forall_cons in Hbs as [Hb _].
    destruct (sextets a b 0 Ha Hb) as (E0 & E1 & _ & _ & _ & E2); [lia|].
    cbn [b64encode]. rewrite E0, E1, E2.
    destruct (b64_index_char (a / 4)) as [I0 _]; [euclid|].
    destruct (b64_index_char (a mod 4 * 16 + b / 16)) as [I1 _]; [euclid|].
    destruct (b64_index_char (b mod 16 * 4)) as [I2 P2]; [euclid|].
    cbn [b64decode]. rewrite I0, I1, I2. apply N.eqb_neq in P2. rewrite P2.
    change (b64_pad =? b64_pad) with true. cbn [andb].
    destruct (octets (a / 4) (a mod 4 * 16 + b / 16) (b mod 16 * 4) 0)
      as (-> & -> & _); [euclid..|].
    do 2 f_equal; [euclid | f_equal; euclid].
  - apply Forall_cons in Hbs as [Ha Hbs]. apply Forall_cons in Hbs as [Hb Hbs].
    apply Forall_cons in Hbs as [Hc Hbs].
    destruct (sextets a b c Ha Hb Hc) as (E0 & E1 & E2 & E3 & _).
    cbn [b64encode]. rewrite E0, E1, E2, E3.
    destruct (b64_index_char (a / 4)) as [I0 _]; [euclid|].
    destruct (b64_index_char (a mod 4 * 16 + b / 16)) as [I1 _]; [euclid|].
    destruct (b64_index_char (b mod 16 * 4 + c / 64)) as [I2 P2]; [euclid|].
    destruct (b64_index_char (c mod 64)) as [I3 P3]; [euclid|].
    rewrite (b64decode_group _ _ _ _ _ _ _ _ _ I0 I1 I2 I3 P2 P3), IH by done.
    destruct (octets (a / 4) (a mod 4 * 16 + b / 16) (b mod 16 * 4 + c / 64) (c mod 64))
      as (-> & -> & ->); [euclid..|].
    do 2 f_equal; [euclid | f_equal; [euclid | f_equal; euclid]].
Qed.

Example b64encode_rfc4648 :
  b64encode (lit "") = lit ""
  /\ b64encode (lit "f") = lit "Zg=="
  /\ b64encode (lit "fo") = lit "Zm8="
  /\ b64encode (lit "foo") = lit "Zm9v"
  /\ b64encode (lit "foob") = lit "Zm9vYg=="
  /\ b64encode (lit "fooba") = lit "Zm9vYmE="
  /\ b64encode (lit "foobar") = lit "Zm9vYmFy".
Proof. vm_compute. by repeat split. Qed.

(** ** Reading back what [json.dumps] wrote *)

Lemma hex_value_digit d : d < 16 -> hex_value (hex_digit d) = Some d.
Proof.
  intros Hd. rewrite <- (N2Nat.id d) at 2. unfold hex_digit.
  assert (H : (N.to_nat d < 16)%nat) by lia. revert H.
  generalize (N.to_nat d). intros n Hn.
  do 16 (destruct n as [|n]; [reflexivity|]). lia.
Qed.

Lemma decode_hex4 n h1 h2 h3 h4 :
  n < 0x10000 -> hex4 n = [h1; h2; h3; h4] -> decode_uXXXX h1 h2 h3 h4 = Some n.
Proof.
  intros Hn [= <- <- <- <-]. unfold decode_uXXXX.
  rewrite !hex_value_digit by euclid. f_equal. euclid.
Qed.

Lemma surrogates_of n :
  n < 0x100000 ->
  N.lor 0xD800 (N.land (N.shiftr n 10) 0x3FF) = 0xD800 + n / 1024 /\
  N.lor 0xDC00 (N.land n 0x3FF) = 0xDC00 + n mod 1024.
Proof.
  intros Hn.
  change 0x3FF with (N.ones 10). rewrite !N.land_ones, N.shiftr_div_pow2.
  rewrite !(lor_aligned _ 10) by (try reflexivity; change (2 ^ 10) with 1024; euclid).
  change (2 ^ 10) with 1024. split; euclid.
Qed.

Lemma join_surrogates_of n :
  n < 0x100000 -> join_surrogates (0xD800 + n / 1024) (0xDC00 + n mod 1024) = 0x10000 + n.
Proof.
  intros Hn. unfold join_surrogates.
  replace (0xD800 + n / 1024 - 0xD800) with (n / 1024) by euclid.
  replace (0xDC00 + n mod 1024 - 0xDC00) with (n mod 1024) by euclid.
  rewrite lor_shiftl_low by (change (2 ^ 10) with 1024; euclid).
  change (2 ^ 10) with 1024. euclid.
Qed.

Lemma scanstring_plain c r acc :
  c <> 34 -> c <> 92 -> 32 <= c -> scanstring (c :: r) acc = scanstring r (c :: acc).
Proof.
  intros H1 H2 H3. cbn [scanstring].
  apply N.eqb_neq in H1, H2. apply N.ltb_ge in H3. by rewrite H1, H2, H3.
Qed.

Lemma scanstring_backslash e ch r acc :
  e <> 117 -> backslash_char e = Some ch ->
  scanstring (92 :: e :: r) acc = scanstring r (ch :: acc).
Proof.
  intros H1 H2. cbn [scanstring]. change (92 =? 34) with false. change (92 =? 92) with true.
  cbn match. apply N.eqb_neq in H1. by rewrite H1, H2.
Qed.

Lemma scanstring_u h1 h2 h3 h4 uni r acc :
  decode_uXXXX h1 h2 h3 h4 = Some uni -> is_high uni = false ->
  scanstring (92 :: 117 :: h1 :: h2 :: h3 :: h4 :: r) acc = scanstring r (uni :: acc).
Proof.
  intros H1 H2. cbn [scanstring]. change (92 =? 34) with false. change (92 =? 92) with true.
  change (117 =? 117) with true. cbn match. by rewrite H1, H2.
Qed.

Lemma scanstring_pair h1 h2 h3 h4 g1 g2 g3 g4 uni uni2 r acc :
  decode_uXXXX h1 h2 h3 h4 = Some uni -> is_high uni = true ->
  decode_uXXXX g1 g2 g3 g4 = Some uni2 -> is_low uni2 = true ->
  scanstring (92 :: 117 :: h1 :: h2 :: h3 :: h4 :: 92 :: 117 :: g1 :: g2 :: g3 :: g4 :: r) acc
  = scanstring r (join_surrogates uni uni2 :: acc).
Proof.
  intros H1 H2 H3 H4. cbn [scanstring]. change (92 =? 34) with false.
  change (92 =? 92) with true. change (117 =? 117) with true. cbn match.
  rewrite H1, H2. cbn [andb]. by rewrite H3, H4.
Qed.

Lemma scalar_bounds c :
  scalar c = true <-> c < 0x110000 /\ (c < 0xD800 \/ 0xDFFF < c).
Proof. unfold scalar, is_surrogate. lia. Qed.

Lemma scanstring_escape_char c tail acc :
  scalar c = true ->
  scanstring (escape_char c ++ tail) acc = scanstring tail (c :: acc).
Proof.
  intros Hc. apply scalar_bounds in Hc. unfold escape_char.
  destruct (N.eqb_spec c 34) as [->|?]; [by apply scanstring_backslash|].
  destruct (N.eqb_spec c 92) as [->|?]; [by apply scanstring_backslash|].
  destruct ((32 <=? c) && (c <=? 126)) eqn:Hp.
  { apply scanstring_plain; lia. }
  destruct (N.eqb_spec c 8) as [->|?]; [by apply scanstring_backslash|].
  destruct (N.eqb_spec c 12) as [->|?]; [by apply scanstring_backslash|].
  destruct (N.eqb_spec c 10) as [->|?]; [by apply scanstring_backslash|].
  destruct (N.eqb_spec c 13) as [->|?]; [by apply scanstring_backslash|].
  destruct (N.eqb_spec c 9) as [->|?]; [by apply scanstring_backslash|].
  destruct (N.ltb_spec c 0x10000) as [Hlt|Hge].
  - apply scanstring_u; [by apply decode_hex4 | unfold is_high; lia].
  - cbv zeta. destruct (surrogates_of (c - 0x10000)) as [-> ->]; [lia|].
    unfold u_escape, hex4. cbn [app].
    assert (Hn : c - 0x10000 < 0x100000) by lia.
    erewrite scanstring_pair.
    + rewrite join_surrogates_of by done.
      by replace (0x10000 + (c - 0x10000)) with c by lia.
    + apply decode_hex4; [euclid | reflexivity].
    + unfold is_high. euclid.
    + apply decode_hex4; [euclid | reflexivity].
    + unfold is_low. euclid.
Qed.

Lemma scanstring_escaped s tail acc :
  unicode_text s ->
  scanstring (concat (escape_char <$> s) ++ 34 :: tail) acc = Some (rev acc ++ s, tail).
Proof.
  intros Hs. revert acc. induction Hs as [|c s Hc _ IH]; intros acc.
  - by rewrite app_nil_r.
  - cbn [fmap list_fmap concat]. rewrite <- app_assoc, scanstring_escape_char by done.
    rewrite IH. cbn [rev]. by rewrite <- app_assoc.
Qed.

Lemma encode_basestring_ascii_app s tail :
  encode_basestring_ascii s ++ tail = 34 :: concat (escape_char <$> s) ++ 34 :: tail.
Proof. unfold encode_basestring_ascii. cbn [app]. by rewrite <- app_assoc. Qed.

Lemma scan_members_step fuel k v tail acc :
  unicode_text k -> unicode_text v ->
  scan_members (S fuel) (dumps_item (k, v) ++ tail) acc =
    match skip_ws tail with
    | sep :: r5 =>
        if sep =? 44 then scan_members fuel (skip_ws r5) ((k, v) :: acc)
        else if sep =? 125 then Some (rev ((k, v) :: acc), r5)
        else None
    | [] => None
    end.
Proof.
  intros Hk Hv. unfold dumps_item. cbn [fst snd].
  rewrite <- !app_assoc, encode_basestring_ascii_app.
  change (lit ": ") with [58; 32]. cbn [app].
  rewrite encode_basestring_ascii_app.
  cbn [scan_members]. change (34 =? 34) with true. cbn match.
  rewrite scanstring_escaped by done. cbn [mbind option_bind rev app].
  change (skip_ws (58 :: 32 :: 34 :: ?r)) with (58 :: 32 :: 34 :: r).
  cbn match. change (58 =? 58) with true. cbn match.
  change (skip_ws (32 :: 34 :: ?r)) with (34 :: r).
  change (34 =? 34) with true. cbn match.
  rewrite scanstring_escaped by done. reflexivity.
Qed.

Lemma skip_ws_quote r : skip_ws (34 :: r) = 34 :: r.
Proof. reflexivity. Qed.

Lemma join_items_quote kv d rest :
  exists r, join (lit ", ") (dumps_item <$> kv :: d) ++ rest = 34 :: r.
Proof.
  destruct d; cbn [fmap list_fmap join]; unfold dumps_item;
    rewrite <- ?app_assoc, encode_basestring_ascii_app; eauto.
Qed.

Lemma scan_members_dumps d : forall fuel acc rest,
  d <> [] -> Forall text_pair d -> (length d <= fuel)%nat ->
  scan_members fuel (join (lit ", ") (dumps_item <$> d) ++ 125 :: rest) acc
  = Some (rev acc ++ d, rest).
Proof.
  induction d as [|[k v] d IH]; intros fuel acc rest Hne Hd Hfuel; [done|].
  apply Forall_cons in Hd as [[Hk Hv] Hd]. cbn [fst snd] in Hk, Hv.
  destruct fuel as [|fuel]; [cbn in Hfuel; lia|].
  destruct d as [|kv' d].
  - cbn [fmap list_fmap join]. rewrite scan_members_step by done.
    reflexivity.
  - change (join (lit ", ") (dumps_item <$> (k, v) :: kv' :: d))
      with (dumps_item (k, v) ++ lit ", " ++ join (lit ", ") (dumps_item <$> kv' :: d)).
    rewrite <- !app_assoc. rewrite scan_members_step by done.
    change (lit ", ") with [44; 32]. cbn [app].
    change (skip_ws (44 :: ?r)) with (44 :: r). cbn match.
    change (44 =? 44) with true. cbn match.
    change (skip_ws (32 :: ?r)) with (skip_ws r).
    destruct (join_items_quote kv' d (125 :: rest)) as [r Hr].
    change [44; 32] with (lit ", "). rewrite Hr, skip_ws_quote, <- Hr.
    rewrite IH; [|done|done|cbn in *; lia].
    cbn [rev]. by rewrite <- app_assoc.
Qed.

Lemma length_join_items d :
  (length d <= length (join (lit ", ") (dumps_item <$> d)))%nat.
Proof.
  induction d as [|kv d IH]; [done|].
  destruct d as [|kv' d].
  - cbn [fmap list_fmap join]. unfold dumps_item, encode_basestring_ascii.
    cbn. lia.
  - change (join (lit ", ") (dumps_item <$> kv :: kv' :: d))
      with (dumps_item kv ++ lit ", " ++ join (lit ", ") (dumps_item <$> kv' :: d)).
    rewrite !length_app. change (length (lit ", ")) with 2%nat.
    cbn [length] in *. lia.
Qed.

Lemma json_loads_dumps d :
  Forall text_pair d -> json_loads (json_dumps d) = Some d.
Proof.
  intros Hd. unfold json_loads, json_dumps.
  change (lit "{") with [123]. change (lit "}") with [125]. cbn [app].
  change (skip_ws (123 :: ?r)) with (123 :: r). cbn match.
  change (123 =? 123) with true. cbn match.
  destruct d as [|kv d].
  - reflexivity.
  - destruct (join_items_quote kv d [125]) as [r Hr].
    rewrite Hr, skip_ws_quote. change (34 =? 125) with false. cbn match.
    rewrite <- Hr, scan_members_dumps; [reflexivity|done|done|].
    pose proof (length_join_items (kv :: d)) as Hlen.
    change (length (kv :: d)) with (S (length d)) in Hlen.
    cbn [length]. rewrite length_app. lia.
Qed.

(** ** Encoding the credentials *)

Lemma utf8_encode_char_ok c :
  scalar c = true -> exists b, utf8_encode_char c = Ok b.
Proof.
  intros Hc. apply scalar_bounds in Hc. unfold utf8_encode_char.
  destruct (c <? 0x80); [eauto|]. destruct (c <? 0x800); [eauto|].
  destruct (N.ltb_spec c 0x10000).
  - replace (is_surrogate c) with false by (unfold is_surrogate; lia). eauto.
  - replace (c <? 0x110000) with true by lia. eauto.
Qed.

Lemma str_encode_ok s : unicode_text s -> exists b, str_encode s = Ok b.
Proof.
  induction 1 as [|c s Hc _ [b IH]]; cbn [str_encode]; [eauto|].
  destruct (utf8_encode_char_ok c Hc) as [bc ->]. rewrite IH. cbn. eauto.
Qed.

Lemma str_encode_surrogate s1 c s2 :
  is_surrogate c = true -> unicode_text s1 ->
  str_encode (s1 ++ c :: s2) = Raise UnicodeEncodeError.
Proof.
  intros Hc Hs. induction Hs as [|c1 s1 Hc1 _ IH]; cbn [app str_encode].
  - unfold utf8_encode_char, is_surrogate in *.
    replace (c <? 0x80) with false by lia. replace (c <? 0x800) with false by lia.
    replace (c <? 0x10000) with true by lia. by rewrite Hc.
  - destruct (utf8_encode_char_ok c1 Hc1) as [b ->]. cbn [rbind]. by rewrite IH.
Qed.

Lemma unicode_text_lit_colon : unicode_text (lit ":").
Proof. by repeat constructor. Qed.

Lemma unicode_text_app s t : unicode_text s -> unicode_text t -> unicode_text (s ++ t).
Proof. apply Forall_app_2. Qed.

Lemma b64_char_ascii i : b64_char i < 128.
Proof.
  unfold b64_char.
  destruct (nth_in_or_default (N.to_nat i) b64_alphabet b64_pad) as [Hin| ->]; [|done].
  revert Hin. generalize (nth (N.to_nat i) b64_alphabet b64_pad). intros x Hx.
  assert (Hall : Forall (fun c => c < 128) b64_alphabet) by (vm_compute; repeat constructor).
  rewrite Forall_forall in Hall. apply Hall. by apply list_elem_of_In.
Qed.

Lemma b64encode_ascii bs : Forall (fun c => c < 128) (b64encode bs).
Proof.
  induction bs as [|a|a b|a b c r IH] using list_ind3; cbn [b64encode];
    repeat (constructor; [first [apply b64_char_ascii | done]|]); done.
Qed.

Lemma bytes_decode_ascii bs :
  Forall (fun c => c < 128) bs -> bytes_decode bs = Ok bs.
Proof.
  induction 1 as [|b bs Hb _ IH]; [done|]. cbn [bytes_decode].
  replace (b <? 0x80) with true by lia. by rewrite IH.
Qed.

Lemma set_auth_both user password :
  __set_auth (Some user) (Some password) =
    rbind (str_encode (user ++ lit ":" ++ password)) (fun b =>
      Ok (Some (lit "Basic " ++ b64encode b))).
Proof.
  unfold __set_auth. destruct (str_encode _) as [b|e]; cbn [rbind]; [|done].
  by rewrite bytes_decode_ascii by apply b64encode_ascii.
Qed.

Lemma set_auth_None_iff user password auth :
  __set_auth user password = Ok auth ->
  auth = None <-> user = None \/ password = None.
Proof.
  destruct user as [u|], password as [p|]; try (intros [= <-]; by intuition).
  rewrite set_auth_both. destruct (str_encode _); cbn [rbind]; intros [= <-].
  split; [done | by intros [|]].
Qed.

(** ** The heap: what one call does *)

Lemma instance_at_Some w self o :
  instance_at w self = Some o <-> heap w !! self = Some (Instance o).
Proof.
  unfold instance_at. destruct (heap w !! self) as [[?|?]|]; split; congruence.
Qed.

Lemma dict_at_Some w l d :
  dict_at w l = Some d <-> heap w !! l = Some (Dict d).
Proof.
  unfold dict_at. destruct (heap w !! l) as [[?|?]|]; split; congruence.
Qed.

Lemma headers_of_Some w self d :
  headers_of w self = Some d <->
  exists o, heap w !! self = Some (Instance o) /\ heap w !! headers o = Some (Dict d).
Proof.
  unfold headers_of. split.
  - destruct (instance_at w self) as [o|] eqn:Ho; [|discriminate].
    cbn. intros Hd. exists o. split; [by apply instance_at_Some | by apply dict_at_Some].
  - intros (o & Ho & Hd). apply instance_at_Some in Ho. rewrite Ho. cbn.
    by apply dict_at_Some.
Qed.

Lemma send_spec network self o d c w :
  heap w !! self = Some (Instance o) ->
  heap w !! headers o = Some (Dict d) ->
  send network self c w =
    (match network (sent w ++ [request_of o c d]) with
     | Response _ => Ok tt
     | Fails e => Raise e
     end,
     {| heap := <[headers o := Dict (headers_after c d)]> (heap w);
        sent := sent w ++ [request_of o c d] |}).
Proof.
  intros Ho Hd.
  assert (Hne : headers o <> self) by (intros E; rewrite E in Hd; congruence).
  destruct c as [ti me li to ta ic tm].
  unfold request_of, headers_after.
  unfold_M. cbn [title message link_url topic tags icon timeout_s].
  destruct to, ta, ic;
    repeat (rewrite ?Ho, ?Hd, ?lookup_insert_eq, ?(lookup_insert_ne _ _ _ _ Hne),
              ?insert_insert_eq; cbn [heap sent default_topic headers server_url]);
    destruct (network _); reflexivity.
Qed.

(** ** Construction and runs of calls *)

Lemma init_spec server_url default_topic ntfy_user ntfy_password w :
  __init__ server_url default_topic ntfy_user ntfy_password w =
    match __set_auth ntfy_user ntfy_password with
    | Raise e => (Raise e, w)
    | Ok auth =>
        let h := fresh (dom (heap w)) in
        let hp := <[h := Dict (base_headers auth)]> (heap w) in
        let self := fresh (dom hp) in
        (Ok self,
         {| heap := <[self := Instance {| server_url := server_url;
                                          default_topic := default_topic;
                                          _auth := auth;
                                          headers := h |}]> hp;
            sent := sent w |})
    end.
Proof.
  unfold __init__, __set_header. unfold_M.
  destruct (__set_auth ntfy_user ntfy_password) as [[a|]|e]; cbn [heap sent].
  - rewrite lookup_insert_eq. cbn [heap sent]. by rewrite insert_insert_eq.
  - reflexivity.
  - reflexivity.
Qed.

(** A credential that [str.encode()] rejects makes the construction raise
    and leaves the world as it was: no client comes to exist. *)
Lemma init_raises_on_surrogate server_url default_topic u1 c u2 password w :
  unicode_text u1 -> is_surrogate c = true ->
  __init__ server_url default_topic (Some (u1 ++ c :: u2)) (Some password) w
  = (Raise UnicodeEncodeError, w).
Proof.
  intros Hu Hc. rewrite init_spec, set_auth_both.
  rewrite <- app_assoc. cbn [app]. by rewrite str_encode_surrogate.
Qed.

Lemma init_client server_url default_topic ntfy_user ntfy_password auth w :
  __set_auth ntfy_user ntfy_password = Ok auth ->
  exists self w' h,
    __init__ server_url default_topic ntfy_user ntfy_password w = (Ok self, w')
    /\ client w' self {| server_url := server_url; default_topic := default_topic;
                         _auth := auth; headers := h |} (base_headers auth)
    /\ sent w' = sent w
    /\ heap w !! self = None /\ heap w !! h = None
    /\ (forall l, l <> self -> l <> h -> heap w' !! l = heap w !! l).
Proof.
  intros Ha. rewrite init_spec, Ha. cbv zeta.
  set (h := fresh (dom (heap w))).
  set (hp := <[h := _]> (heap w)).
  set (self := fresh (dom hp)).
  assert (Hh : heap w !! h = None) by (apply not_elem_of_dom, is_fresh).
  assert (Hs : hp !! self = None) by (apply not_elem_of_dom, is_fresh).
  assert (Hne : h <> self).
  { intros E. subst hp. rewrite <- E, lookup_insert_eq in Hs. done. }
  eexists self, _, h. split; [reflexivity|]. unfold client. cbn [heap sent headers].
  repeat split.
  - apply lookup_insert_eq.
  - rewrite lookup_insert_ne by done. apply lookup_insert_eq.
  - subst hp. by rewrite lookup_insert_ne in Hs.
  - done.
  - intros l H1 H2. subst hp. by rewrite !lookup_insert_ne.
Qed.

Lemma send_client network self o d c w :
  client w self o d ->
  client (send network self c w).2 self o (headers_after c d).
Proof.
  intros [Ho Hd]. rewrite (send_spec _ _ _ _ _ _ Ho Hd). cbn [snd]. unfold client. cbn [heap].
  assert (Hne : headers o <> self) by (intros E; rewrite E in Hd; congruence).
  split; [by rewrite lookup_insert_ne | apply lookup_insert_eq].
Qed.

Lemma send_all_spec network self o cs : forall d w,
  client w self o d ->
  client (send_all network self cs w) self o (headers_after_all cs d)
  /\ sent (send_all network self cs w) = sent w ++ requests_of o cs d
  /\ (forall l, l <> headers o -> heap (send_all network self cs w) !! l = heap w !! l).
Proof.
  induction cs as [|c cs IH]; intros d w Hc; cbn [send_all headers_after_all requests_of].
  - by rewrite app_nil_r.
  - destruct (IH _ _ (send_client network _ _ _ c _ Hc)) as (H1 & H2 & H3).
    destruct Hc as [Ho Hd].
    split; [done|]. split.
    + rewrite H2, (send_spec _ _ _ _ _ _ Ho Hd). cbn [snd sent].
      by rewrite <- app_assoc.
    + intros l Hl. rewrite H3, (send_spec _ _ _ _ _ _ Ho Hd) by done.
      cbn [snd heap]. by rewrite lookup_insert_ne.
Qed.

Lemma sent_since_send_all network self o d cs w :
  client w self o d ->
  sent_since w (send_all network self cs w) = requests_of o cs d.
Proof.
  intros Hc. unfold sent_since.
  destruct (send_all_spec network self o cs d w Hc) as (_ & -> & _).
  by rewrite drop_app_length.
Qed.

Lemma length_requests_of o cs : forall d, length (requests_of o cs d) = length cs.
Proof. induction cs as [|c cs IH]; intros d; cbn; [done | by rewrite IH]. Qed.

(** Keys a call may write. *)
Lemma headers_after_other c d (k : string) :
  k <> "Title"%string -> k <> "Click"%string -> k <> "Tags"%string -> k <> "Icon"%string ->
  headers_after c d !! k = d !! k.
Proof.
  intros H1 H2 H3 H4. unfold headers_after.
  destruct (tags c), (icon c); by rewrite ?lookup_insert_ne.
Qed.

(** ** The sample client *)

Example sample_world_init :
  __init__ (lit "https://ntfy.sh/") (lit "alerts") None None empty_world
  = (Ok 2%positive, sample_world).
Proof. vm_compute. reflexivity. Qed.

Example sample_world_client : client sample_world 2 sample_client ∅.
Proof. split; reflexivity. Qed.

(** The end-to-end scenario of the specification: no credentials, and
    [send_msg(title="Disk Full", message="90% used")]. *)
Example end_to_end_disk_full :
  send (answers 200) 2 disk_full sample_world =
    (Ok tt,
     {| heap := <[1%positive :=
                    Dict (<["Click" := None]> (<["Title" := Some (lit "Disk Full")]> ∅))]>
                  (heap sample_world);
        sent := [{| url := lit "https://ntfy.sh/";
                    req_headers :=
                      <["Click" := None]> (<["Title" := Some (lit "Disk Full")]> ∅);
                    data := dq (lit "{'topic': 'alerts', 'message': '90% used'}");
                    timeout := 10 |}] |}).
Proof. vm_compute. reflexivity. Qed.

(** ** What the requests of a run carry *)

Lemma sent_since_send network self o d c w :
  client w self o d ->
  sent_since w (send network self c w).2 = [request_of o c d].
Proof.
  intros [Ho Hd]. rewrite (send_spec _ _ _ _ _ _ Ho Hd). unfold sent_since.
  cbn [snd sent]. by rewrite drop_app_length.
Qed.

Lemma send_result network self o d c w :
  client w self o d ->
  (send network self c w).1 =
    match network (sent w ++ [request_of o c d]) with
    | Response _ => Ok tt
    | Fails e => Raise e
    end.
Proof. intros [Ho Hd]. by rewrite (send_spec _ _ _ _ _ _ Ho Hd). Qed.

Lemma headers_of_client w self o d : client w self o d -> headers_of w self = Some d.
Proof. intros [Ho Hd]. apply headers_of_Some. eauto. Qed.

Lemma instance_at_client w self o d : client w self o d -> instance_at w self = Some o.
Proof. intros [Ho _]. by apply instance_at_Some. Qed.

Lemma headers_after_Title c d : headers_after c d !! "Title" = Some (Some (title c)).
Proof.
  unfold headers_after.
  destruct (tags c), (icon c); by simplify_map_eq.
Qed.

Lemma headers_after_Click c d : headers_after c d !! "Click" = Some (link_url c).
Proof.
  unfold headers_after.
  destruct (tags c), (icon c); by simplify_map_eq.
Qed.

Lemma headers_after_Tags c d :
  headers_after c d !! "Tags" =
    match tags c with Some t => Some (Some t) | None => d !! "Tags" end.
Proof.
  unfold headers_after.
  destruct (tags c), (icon c); by simplify_map_eq.
Qed.

Lemma headers_after_Icon c d :
  headers_after c d !! "Icon" =
    match icon c with Some i => Some (Some i) | None => d !! "Icon" end.
Proof.
  unfold headers_after.
  destruct (tags c), (icon c); by simplify_map_eq.
Qed.

Lemma requests_of_other o (k : string) cs : forall d,
  k <> "Title"%string -> k <> "Click"%string -> k <> "Tags"%string -> k <> "Icon"%string ->
  Forall (fun r => req_headers r !! k = d !! k) (requests_of o cs d).
Proof.
  induction cs as [|c cs IH]; intros d H1 H2 H3 H4; cbn [requests_of]; constructor.
  - cbn [request_of req_headers]. by apply headers_after_other.
  - eapply Forall_impl; [by apply IH|]. cbn beta. intros r ->.
    by apply headers_after_other.
Qed.

Lemma headers_after_all_other (k : string) cs : forall d,
  k <> "Title"%string -> k <> "Click"%string -> k <> "Tags"%string -> k <> "Icon"%string ->
  headers_after_all cs d !! k = d !! k.
Proof.
  induction cs as [|c cs IH]; intros d H1 H2 H3 H4; cbn [headers_after_all]; [done|].
  rewrite IH by done. by apply headers_after_other.
Qed.

Lemma headers_after_all_Tags cs : forall d,
  headers_after_all cs d !! "Tags" =
    match last_given tags cs with Some t => Some (Some t) | None => d !! "Tags" end.
Proof.
  induction cs as [|c cs IH]; intros d; cbn [headers_after_all last_given]; [done|].
  rewrite IH, headers_after_Tags. by destruct (last_given tags cs), (tags c).
Qed.

Lemma headers_after_all_Icon cs : forall d,
  headers_after_all cs d !! "Icon" =
    match last_given icon cs with Some t => Some (Some t) | None => d !! "Icon" end.
Proof.
  induction cs as [|c cs IH]; intros d; cbn [headers_after_all last_given]; [done|].
  rewrite IH, headers_after_Icon. by destruct (last_given icon cs), (icon c).
Qed.

Lemma last_given_None f cs :
  Forall (fun c => f c = None) cs -> last_given f cs = None.
Proof. induction 1 as [|c cs Hc _ IH]; cbn [last_given]; [done | by rewrite IH]. Qed.

Lemma requests_of_Tags_kept o t cs : forall d,
  d !! "Tags" = Some (Some t) -> Forall (fun c => tags c = None) cs ->
  Forall (fun r => req_headers r !! "Tags" = Some (Some t)) (requests_of o cs d).
Proof.
  induction cs as [|c cs IH]; intros d Hd Hcs; cbn [requests_of]; [constructor|].
  apply Forall_cons in Hcs as [Hc Hcs].
  assert (E : headers_after c d !! "Tags" = Some (Some t))
    by (by rewrite headers_after_Tags, Hc).
  constructor; [done | by apply IH].
Qed.

Lemma requests_of_Icon_kept o t cs : forall d,
  d !! "Icon" = Some (Some t) -> Forall (fun c => icon c = None) cs ->
  Forall (fun r => req_headers r !! "Icon" = Some (Some t)) (requests_of o cs d).
Proof.
  induction cs as [|c cs IH]; intros d Hd Hcs; cbn [requests_of]; [constructor|].
  apply Forall_cons in Hcs as [Hc Hcs].
  assert (E : headers_after c d !! "Icon" = Some (Some t))
    by (by rewrite headers_after_Icon, Hc).
  constructor; [done | by apply IH].
Qed.

(** * The claims *)

(** C1: when the client is constructed with both a username and a password,
    the Authorization header stored at construction, and carried by the
    request of every later send, is "Basic " followed by the base64
    encoding of the bytes of "username:password". The construction succeeds
    for every username and password that are texts. *)
Theorem basic_authorization_header network server_url default_topic user password w0 :
  (unicode_text user -> unicode_text password ->
   exists self w,
     __init__ server_url default_topic (Some user) (Some password) w0 = (Ok self, w))
  /\ forall self w,
       __init__ server_url default_topic (Some user) (Some password) w0 = (Ok self, w) ->
       exists b,
         str_encode (user ++ lit ":" ++ password) = Ok b
         /\ (exists o, instance_at w self = Some o
                       /\ _auth o = Some (lit "Basic " ++ b64encode b))
         /\ (exists d, headers_of w self = Some d
                       /\ d !! "Authorization" = Some (Some (lit "Basic " ++ b64encode b)))
         /\ forall calls,
              length (sent_since w (send_all network self calls w)) = length calls
              /\ Forall (fun r => req_headers r !! "Authorization"
                                  = Some (Some (lit "Basic " ++ b64encode b)))
                   (sent_since w (send_all network self calls w)).
Proof.
  split.
  - intros Hu Hp.
    destruct (str_encode_ok (user ++ lit ":" ++ password)) as [b Hb].
    { auto using unicode_text_app, unicode_text_lit_colon. }
    destruct (init_client server_url default_topic (Some user) (Some password)
                (Some (lit "Basic " ++ b64encode b)) w0)
      as (self & w & h & Hinit & _); [by rewrite set_auth_both, Hb|].
    by exists self, w.
  - intros self w Hinit.
    destruct (str_encode (user ++ lit ":" ++ password)) as [b|e] eqn:Hb;
      [|by rewrite init_spec, set_auth_both, Hb in Hinit].
    assert (Ha : __set_auth (Some user) (Some password)
                 = Ok (Some (lit "Basic " ++ b64encode b)))
      by (by rewrite set_auth_both, Hb).
    destruct (init_client server_url default_topic _ _ _ w0 Ha)
      as (self' & w' & h & Hinit' & Hc & _).
    rewrite Hinit in Hinit'. injection Hinit' as <- <-.
    exists b. split; [done|].
    split; [eexists; split; [by eapply instance_at_client | done]|].
    split; [eexists; split; [by eapply headers_of_client | by simplify_map_eq]|].
    intros calls. rewrite (sent_since_send_all _ _ _ _ _ _ Hc).
    split; [apply length_requests_of|].
    eapply Forall_impl; [by apply (requests_of_other _ "Authorization")|].
    cbn beta. intros r ->. by simplify_map_eq.
Qed.

(** C1 at the specification's example: user bob, password secret. *)
Lemma basic_authorization_header_bob :
  exists self w,
    __init__ (lit "https://ntfy.sh/") (lit "alerts")
      (Some (lit "bob")) (Some (lit "secret")) empty_world = (Ok self, w)
    /\ (exists d, headers_of w self = Some d
          /\ d !! "Authorization" = Some (Some (lit "Basic Ym9iOnNlY3JldA==")))
    /\ Forall (fun r => req_headers r !! "Authorization"
                        = Some (Some (lit "Basic Ym9iOnNlY3JldA==")))
         (sent_since w (send_all (answers 200) self [disk_full; tagged; disk_full] w)).
Proof.
  destruct (basic_authorization_header (answers 200) (lit "https://ntfy.sh/")
              (lit "alerts") (lit "bob") (lit "secret") empty_world)
    as [Hreturns Hheader].
  destruct Hreturns as (self & w & Hinit); [by repeat constructor..|].
  destruct (Hheader self w Hinit) as (b & Hb & _ & Hd & Hsent).
  vm_compute in Hb. injection Hb as <-.
  exists self, w. split; [exact Hinit|]. split; [exact Hd|].
  exact (proj2 (Hsent _)).
Defined.

(** C2: when exactly one of the username and the password is None, the
    client is anonymous: construction leaves the headers mapping without an
    Authorization entry, and no request of a later send carries one. *)
Theorem anonymous_when_one_credential_absent
    network server_url default_topic user password w0 :
  (user = None /\ password <> None) \/ (user <> None /\ password = None) ->
  exists self w,
    __init__ server_url default_topic user password w0 = (Ok self, w)
    /\ (exists o, instance_at w self = Some o /\ _auth o = None)
    /\ (exists d, headers_of w self = Some d /\ d !! "Authorization" = None)
    /\ forall calls,
         length (sent_since w (send_all network self calls w)) = length calls
         /\ Forall (fun r => req_headers r !! "Authorization" = None)
              (sent_since w (send_all network self calls w)).
Proof.
  intros Hone.
  assert (Ha : __set_auth user password = Ok None).
  { destruct user, password; try done; by destruct Hone as [[]|[]]. }
  destruct (init_client server_url default_topic _ _ _ w0 Ha)
    as (self & w & h & Hinit & Hc & _).
  exists self, w. split; [done|].
  split; [eexists; split; [by eapply instance_at_client | done]|].
  split; [eexists; split; [by eapply headers_of_client | done]|].
  intros calls. rewrite (sent_since_send_all _ _ _ _ _ _ Hc).
  split; [apply length_requests_of|].
  eapply Forall_impl; [by apply (requests_of_other _ "Authorization")|].
  cbn beta. by intros r ->.
Qed.

(** C2 with a username and no password. *)
Lemma anonymous_when_password_absent :
  ((Some (lit "bob") = None /\ @None (list N) <> None)
   \/ (Some (lit "bob") <> None /\ @None (list N) = None))
  /\ exists self w,
       __init__ (lit "https://ntfy.sh/") (lit "alerts") (Some (lit "bob")) None
         empty_world = (Ok self, w)
       /\ (exists o, instance_at w self = Some o /\ _auth o = None)
       /\ (exists d, headers_of w self = Some d /\ d !! "Authorization" = None)
       /\ forall calls,
            length (sent_since w (send_all times_out self calls w)) = length calls
            /\ Forall (fun r => req_headers r !! "Authorization" = None)
                 (sent_since w (send_all times_out self calls w)).
Proof.
  assert (H : (Some (lit "bob") = None /\ @None (list N) <> None)
              \/ (Some (lit "bob") <> None /\ @None (list N) = None))
    by (right; split; [discriminate | reflexivity]).
  split; [exact H|].
  exact (anonymous_when_one_credential_absent times_out (lit "https://ntfy.sh/")
           (lit "alerts") (Some (lit "bob")) None empty_world H).
Defined.

(** C9: empty strings are credentials like any other. Whenever both the
    username and the password are given, one or both of them empty, the
    Authorization header is built, from the bytes of "username:password";
    the header is missing only when a credential is None. *)
Theorem empty_credentials_still_authenticate server_url default_topic w0 :
  (forall user password,
     unicode_text user -> unicode_text password -> user = [] \/ password = [] ->
     exists self w b d,
       __init__ server_url default_topic (Some user) (Some password) w0 = (Ok self, w)
       /\ str_encode (user ++ lit ":" ++ password) = Ok b
       /\ headers_of w self = Some d
       /\ d !! "Authorization" = Some (Some (lit "Basic " ++ b64encode b)))
  /\ (exists self w d,
        __init__ server_url default_topic (Some []) (Some []) w0 = (Ok self, w)
        /\ headers_of w self = Some d
        /\ d !! "Authorization" = Some (Some (lit "Basic Og==")))
  /\ (forall user password self w,
        __init__ server_url default_topic user password w0 = (Ok self, w) ->
        exists d, headers_of w self = Some d
          /\ (d !! "Authorization" = None <-> user = None \/ password = None)).
Proof.
  assert (Hboth : forall user password,
     unicode_text user -> unicode_text password ->
     exists self w b d,
       __init__ server_url default_topic (Some user) (Some password) w0 = (Ok self, w)
       /\ str_encode (user ++ lit ":" ++ password) = Ok b
       /\ headers_of w self = Some d
       /\ d !! "Authorization" = Some (Some (lit "Basic " ++ b64encode b))).
  { intros user password Hu Hp.
    destruct (str_encode_ok (user ++ lit ":" ++ password)) as [b Hb].
    { auto using unicode_text_app, unicode_text_lit_colon. }
    assert (Ha : __set_auth (Some user) (Some password)
                 = Ok (Some (lit "Basic " ++ b64encode b)))
      by (by rewrite set_auth_both, Hb).
    destruct (init_client server_url default_topic _ _ _ w0 Ha)
      as (self & w & h & Hinit & Hc & _).
    exists self, w, b, (base_headers (Some (lit "Basic " ++ b64encode b))).
    split; [done|]. split; [done|].
    split; [by eapply headers_of_client | by simplify_map_eq]. }
  split; [by auto|]. split.
  - destruct (Hboth [] []) as (self & w & b & d & Hinit & Hb & Hd & Ha);
      [constructor..|].
    vm_compute in Hb. injection Hb as <-. by exists self, w, d.
  - intros user password self w Hinit.
    destruct (__set_auth user password) as [auth|e] eqn:Ha.
    + destruct (init_client server_url default_topic _ _ _ w0 Ha)
        as (self' & w' & h & Hinit' & Hc & _).
      rewrite Hinit in Hinit'. injection Hinit' as <- <-.
      exists (base_headers auth). split; [by eapply headers_of_client|].
      rewrite <- (set_auth_None_iff _ _ _ Ha).
      destruct auth; by simplify_map_eq.
    + by rewrite init_spec, Ha in Hinit.
Qed.

Lemma data_request_of o c d :
  data (request_of o c d) =
    json_dumps
      [(lit "topic", match topic c with None => default_topic o | Some t => t end);
       (lit "message", message c)].
Proof. reflexivity. Qed.

(** C3: the "topic" field of the JSON body of a send is the topic argument
    when one is given, and the client's default topic when it is None. The
    body is the serialization of a dict whose "topic" is that string, and
    reading the body back yields it. *)
Theorem body_topic_is_argument_or_default network self o d c w :
  client w self o d ->
  exists r topic_send,
    sent_since w (send network self c w).2 = [r]
    /\ data r = json_dumps [(lit "topic", topic_send); (lit "message", message c)]
    /\ (forall t, topic c = Some t -> topic_send = t)
    /\ (topic c = None -> topic_send = default_topic o)
    /\ (unicode_text topic_send -> unicode_text (message c) ->
        exists body, json_loads (data r) = Some body
                     /\ assoc (lit "topic") body = Some topic_send).
Proof.
  intros Hc. eexists _, _.
  split; [by eapply sent_since_send|].
  split; [apply data_request_of|].
  split; [by intros t ->|]. split; [by intros ->|].
  intros Ht Hm. eexists. split.
  - rewrite data_request_of. apply json_loads_dumps. by repeat constructor.
  - reflexivity.
Qed.

(** C3 on the sample client: a call without a topic and a call with one. *)
Lemma body_topic_sample :
  client sample_world 2 sample_client ∅
  /\ (exists r body,
        sent_since sample_world (send (answers 200) 2 disk_full sample_world).2 = [r]
        /\ json_loads (data r) = Some body
        /\ assoc (lit "topic") body = Some (lit "alerts"))
  /\ (exists r body,
        sent_since sample_world (send (answers 200) 2 tagged sample_world).2 = [r]
        /\ json_loads (data r) = Some body
        /\ assoc (lit "topic") body = Some (lit "jobs")).
Proof.
  assert (Hc : client sample_world 2 sample_client ∅) by (split; reflexivity).
  split; [exact Hc|]. split.
  - destruct (body_topic_is_argument_or_default (answers 200) 2 sample_client ∅
                disk_full sample_world Hc) as (r & ts & Hr & _ & _ & Hnone & Hread).
    rewrite (Hnone eq_refl) in Hread.
    destruct Hread as (body & Hbody & Htopic); [by repeat constructor..|].
    by exists r, body.
  - destruct (body_topic_is_argument_or_default (answers 200) 2 sample_client ∅
                tagged sample_world Hc) as (r & ts & Hr & _ & Hsome & _ & Hread).
    rewrite (Hsome _ eq_refl) in Hread.
    destruct Hread as (body & Hbody & Htopic); [by repeat constructor..|].
    by exists r, body.
Defined.

(** C4: the JSON body of a send is the serialization of a dict with the
    two keys "topic" and "message" and no other, whose "message" is the
    message argument; reading the body back yields that dict. *)
Theorem body_has_topic_and_message_only network self o d c w :
  client w self o d ->
  exists r body,
    sent_since w (send network self c w).2 = [r]
    /\ data r = json_dumps body
    /\ body.*1 = [lit "topic"; lit "message"]
    /\ assoc (lit "message") body = Some (message c)
    /\ (Forall text_pair body -> json_loads (data r) = Some body).
Proof.
  intros Hc. eexists _, _.
  split; [by eapply sent_since_send|].
  split; [apply data_request_of|].
  split; [reflexivity|]. split; [reflexivity|].
  intros Hbody. rewrite data_request_of. by apply json_loads_dumps.
Qed.

(** C4 on the sample client: the body of the call [tagged], letter by letter. *)
Lemma body_has_topic_and_message_only_sample :
  client sample_world 2 sample_client ∅
  /\ exists r,
       sent_since sample_world (send (answers 200) 2 tagged sample_world).2 = [r]
       /\ data r = dq (lit "{'topic': 'jobs', 'message': 'done'}")
       /\ json_loads (data r) = Some [(lit "topic", lit "jobs"); (lit "message", lit "done")].
Proof.
  assert (Hc : client sample_world 2 sample_client ∅) by (split; reflexivity).
  split; [exact Hc|].
  destruct (body_has_topic_and_message_only (answers 200) 2 sample_client ∅
              tagged sample_world Hc) as (r & body & Hr & Hdata & _ & _ & _).
  exists r. split; [exact Hr|].
  rewrite (sent_since_send _ _ _ _ _ _ Hc) in Hr. injection Hr as <-.
  split; vm_compute; reflexivity.
Defined.

(** C5, as the specification states it, fails: a response with a status
    outside 2xx is a failed HTTP call by the specification's reading, yet
    [send_msg] returns normally on it. Here the server answers 500. *)
Lemma non_2xx_is_not_raised :
  exists r,
    sent_since sample_world (send (answers 500) 2 disk_full sample_world).2 = [r]
    /\ http_failure (answers 500 (sent sample_world ++ [r]))
    /\ (send (answers 500) 2 disk_full sample_world).1 = Ok tt.
Proof.
  assert (Hc : client sample_world 2 sample_client ∅) by (split; reflexivity).
  eexists. split; [by apply (sent_since_send _ _ _ _ _ _ Hc)|].
  split; [cbn; lia|]. by rewrite (send_result _ _ _ _ _ _ Hc).
Qed.

(** C5, amended: a send issues exactly one POST. When that call raises
    (network error, timeout), the send raises the same exception, unchanged;
    when it returns a response, whatever its status code, the send returns
    None normally. *)
Theorem post_exception_propagates_unchanged network self o d c w :
  client w self o d ->
  exists r,
    sent_since w (send network self c w).2 = [r]
    /\ (forall e, network (sent w ++ [r]) = Fails e ->
                  (send network self c w).1 = Raise e)
    /\ (forall status_code, network (sent w ++ [r]) = Response status_code ->
                  (send network self c w).1 = Ok tt).
Proof.
  intros Hc. eexists. split; [by eapply sent_since_send|].
  rewrite (send_result _ _ _ _ _ _ Hc). split.
  - by intros e ->.
  - by intros st ->.
Qed.

(** C5, amended, on a network that times out. *)
Lemma post_exception_propagates_timeout :
  client sample_world 2 sample_client ∅
  /\ exists r,
       sent_since sample_world (send times_out 2 disk_full sample_world).2 = [r]
       /\ (send times_out 2 disk_full sample_world).1 = Raise (RequestException 1).
Proof.
  assert (Hc : client sample_world 2 sample_client ∅) by (split; reflexivity).
  split; [exact Hc|].
  destruct (post_exception_propagates_unchanged times_out 2 sample_client ∅
              disk_full sample_world Hc) as (r & Hr & Hraise & _).
  exists r. split; [exact Hr|]. exact (Hraise _ eq_refl).
Defined.

(** C6, as the specification states it, fails: a send that gives no tags
    and no icon still carries the Tags and Icon headers that an earlier send
    on the same client wrote. *)
Lemma tags_and_icon_not_omitted_on_reused_client :
  let w1 := (send (answers 200) 2 tagged sample_world).2 in
  exists r,
    sent_since w1 (send (answers 200) 2 disk_full w1).2 = [r]
    /\ tags disk_full = None /\ icon disk_full = None
    /\ req_headers r !! "Tags" = Some (Some (lit "warning"))
    /\ req_headers r !! "Icon" = Some (Some (lit "https://ntfy.sh/icon.png")).
Proof.
  assert (Hc : client sample_world 2 sample_client ∅) by (split; reflexivity).
  pose proof (send_client (answers 200) _ _ _ tagged _ Hc) as Hc1.
  cbv zeta. eexists. split; [by apply (sent_since_send _ _ _ _ _ _ Hc1)|].
  repeat split; cbn [request_of req_headers];
    by rewrite ?headers_after_Tags, ?headers_after_Icon.
Qed.

(** C6, amended: a send writes the Tags entry of the headers mapping only
    when the tags argument is given, and never writes a null there. On a
    client built by [__init__] and used by any earlier calls, the Tags
    header of the request is the tags argument when one is given; when none
    is given the entry is as the call found it, and the header is omitted
    from the request if no earlier call gave tags. The same holds of Icon
    and the icon argument. *)
Theorem tags_and_icon_written_only_when_given
    network server_url default_topic user password w0 self w earlier c :
  __init__ server_url default_topic user password w0 = (Ok self, w) ->
  let w1 := send_all network self earlier w in
  exists r before,
    headers_of w1 self = Some before
    /\ sent_since w1 (send network self c w1).2 = [r]
    /\ (forall t, tags c = Some t -> req_headers r !! "Tags" = Some (Some t))
    /\ (tags c = None -> req_headers r !! "Tags" = before !! "Tags")
    /\ (tags c = None -> Forall (fun c' => tags c' = None) earlier ->
        req_headers r !! "Tags" = None)
    /\ req_headers r !! "Tags" <> Some None
    /\ (forall i, icon c = Some i -> req_headers r !! "Icon" = Some (Some i))
    /\ (icon c = None -> req_headers r !! "Icon" = before !! "Icon")
    /\ (icon c = None -> Forall (fun c' => icon c' = None) earlier ->
        req_headers r !! "Icon" = None)
    /\ req_headers r !! "Icon" <> Some None.
Proof.
  intros Hinit w1.
  destruct (__set_auth user password) as [auth|e] eqn:Ha;
    [|by rewrite init_spec, Ha in Hinit].
  destruct (init_client server_url default_topic _ _ _ w0 Ha)
    as (self' & w' & h & Hinit' & Hc & _).
  rewrite Hinit in Hinit'. injection Hinit' as <- <-.
  destruct (send_all_spec network self _ earlier _ _ Hc) as (Hc1 & _).
  fold w1 in Hc1. eexists _, _. split; [by eapply headers_of_client|].
  split; [by apply (sent_since_send _ _ _ _ _ _ Hc1)|].
  cbn [request_of req_headers].
  rewrite headers_after_Tags, headers_after_Icon,
    headers_after_all_Tags, headers_after_all_Icon.
  assert (base_headers auth !! "Tags" = None) as -> by (destruct auth; by simplify_map_eq).
  assert (base_headers auth !! "Icon" = None) as -> by (destruct auth; by simplify_map_eq).
  repeat split.
  - by intros t ->.
  - by intros ->.
  - intros -> Hnone. by rewrite (last_given_None tags).
  - by destruct (tags c), (last_given tags earlier).
  - by intros i ->.
  - by intros ->.
  - intros -> Hnone. by rewrite (last_given_None icon).
  - by destruct (icon c), (last_given icon earlier).
Qed.

(** C6, amended, on the first send of a fresh client. *)
Lemma tags_and_icon_absent_on_first_send :
  __init__ (lit "https://ntfy.sh/") (lit "alerts") None None empty_world
  = (Ok 2%positive, sample_world)
  /\ exists r,
       sent_since sample_world (send (answers 200) 2 disk_full sample_world).2 = [r]
       /\ req_headers r !! "Tags" = None
       /\ req_headers r !! "Icon" = None.
Proof.
  assert (Hinit : __init__ (lit "https://ntfy.sh/") (lit "alerts") None None empty_world
                  = (Ok 2%positive, sample_world)) by (vm_compute; reflexivity).
  split; [exact Hinit|].
  destruct (tags_and_icon_written_only_when_given (answers 200)
              (lit "https://ntfy.sh/") (lit "alerts") None None empty_world
              2%positive sample_world [] disk_full Hinit)
    as (r & before & _ & Hr & _ & _ & Htags & _ & _ & _ & Hicon & _).
  exists r. split; [exact Hr|].
  split; [exact (Htags eq_refl (Forall_nil_2 _)) | exact (Hicon eq_refl (Forall_nil_2 _))].
Defined.

(** C7: a send updates the client's one headers mapping in place and the
    update outlives the call, whether it returns or raises: the mapping the
    request was given is the mapping the client holds afterwards. So once a
    send has given tags (or an icon), the requests of the sends that follow
    on the same client without tags (without an icon) still carry them. *)
Theorem headers_mutation_persists network self o d c w :
  client w self o d ->
  let w1 := (send network self c w).2 in
  exists r d1,
    sent_since w (send network self c w).2 = [r]
    /\ req_headers r = d1
    /\ instance_at w1 self = Some o
    /\ dict_at w1 (headers o) = Some d1
    /\ d1 !! "Title" = Some (Some (title c))
    /\ (forall t later,
          tags c = Some t -> Forall (fun c' => tags c' = None) later ->
          length (sent_since w1 (send_all network self later w1)) = length later
          /\ Forall (fun r' => req_headers r' !! "Tags" = Some (Some t))
               (sent_since w1 (send_all network self later w1)))
    /\ (forall i later,
          icon c = Some i -> Forall (fun c' => icon c' = None) later ->
          length (sent_since w1 (send_all network self later w1)) = length later
          /\ Forall (fun r' => req_headers r' !! "Icon" = Some (Some i))
               (sent_since w1 (send_all network self later w1))).
Proof.
  intros Hc w1.
  pose proof (send_client network _ _ _ c _ Hc) as Hc1. fold w1 in Hc1.
  exists (request_of o c d), (headers_after c d).
  split; [by apply sent_since_send|]. split; [done|].
  split; [by eapply instance_at_client|].
  split; [by apply dict_at_Some, Hc1|].
  split; [apply headers_after_Title|].
  split.
  - intros t later Ht Hlater. rewrite (sent_since_send_all _ _ _ _ _ _ Hc1).
    split; [apply length_requests_of|].
    apply requests_of_Tags_kept; [|done]. by rewrite headers_after_Tags, Ht.
  - intros i later Hi Hlater. rewrite (sent_since_send_all _ _ _ _ _ _ Hc1).
    split; [apply length_requests_of|].
    apply requests_of_Icon_kept; [|done]. by rewrite headers_after_Icon, Hi.
Qed.

(** C7 on the sample client: the tags of a send that timed out are carried
    by the two sends that follow. *)
Lemma headers_mutation_persists_sample :
  client sample_world 2 sample_client ∅
  /\ let w1 := (send times_out 2 tagged sample_world).2 in
     Forall (fun r' => req_headers r' !! "Tags" = Some (Some (lit "warning")))
       (sent_since w1 (send_all times_out 2 [disk_full; disk_full] w1))
     /\ length (sent_since w1 (send_all times_out 2 [disk_full; disk_full] w1)) = 2%nat.
Proof.
  assert (Hc : client sample_world 2 sample_client ∅) by (split; reflexivity).
  split; [exact Hc|].
  destruct (headers_mutation_persists times_out 2 sample_client ∅ tagged
              sample_world Hc) as (r & d1 & _ & _ & _ & _ & _ & Htags & _).
  destruct (Htags (lit "warning") [disk_full; disk_full] eq_refl) as [Hlen Hall].
  - by repeat constructor.
  - cbv zeta. split; [exact Hall | exact Hlen].
Defined.

(** C8: every send writes the Click entry of the headers mapping, with the
    link when one is given and with None when it is not (the entry is then
    present and null, not missing); and it writes the Title entry with the
    title argument, the empty string included. *)
Theorem click_and_title_always_written network self o d c w :
  client w self o d ->
  exists r d1,
    sent_since w (send network self c w).2 = [r]
    /\ req_headers r = d1
    /\ headers_of (send network self c w).2 self = Some d1
    /\ d1 !! "Click" = Some (link_url c)
    /\ (link_url c = None -> d1 !! "Click" = Some None /\ "Click" ∈ dom d1)
    /\ d1 !! "Title" = Some (Some (title c)).
Proof.
  intros Hc.
  pose proof (send_client network _ _ _ c _ Hc) as Hc1.
  exists (request_of o c d), (headers_after c d).
  split; [by apply sent_since_send|]. split; [done|].
  split; [by eapply headers_of_client|].
  split; [apply headers_after_Click|].
  split; [|apply headers_after_Title].
  intros Hl. assert (E : headers_after c d !! "Click" = Some None)
    by (by rewrite headers_after_Click, Hl).
  split; [done|]. apply elem_of_dom. by rewrite E.
Qed.

(** C8 with no link and an empty title. *)
Lemma click_null_and_empty_title_written :
  client sample_world 2 sample_client ∅
  /\ exists r,
       sent_since sample_world
         (send (answers 200) 2 (plain_call [] (lit "90% used")) sample_world).2 = [r]
       /\ req_headers r !! "Click" = Some None
       /\ req_headers r !! "Title" = Some (Some []).
Proof.
  assert (Hc : client sample_world 2 sample_client ∅) by (split; reflexivity).
  split; [exact Hc|].
  destruct (click_and_title_always_written (answers 200) 2 sample_client ∅
              (plain_call [] (lit "90% used")) sample_world Hc)
    as (r & d1 & Hr & <- & _ & Hclick & _ & Htitle).
  exists r. split; [exact Hr|]. split; [exact Hclick | exact Htitle].
Defined.

(** C10: a send leaves the client's configuration as it was: the instance
    attributes (server_url, default_topic and the rest), the Authorization
    entry of the headers mapping, present or absent, and every entry other
    than Title, Click, Tags and Icon; no other object is touched. The same
    holds after any run of sends. *)
Theorem send_preserves_configuration network self o d c w :
  client w self o d ->
  let w1 := (send network self c w).2 in
  instance_at w1 self = Some o
  /\ (exists d1, headers_of w1 self = Some d1
        /\ d1 !! "Authorization" = d !! "Authorization"
        /\ forall k : string,
             k ∉ ["Title"; "Click"; "Tags"; "Icon"]%string -> d1 !! k = d !! k)
  /\ (forall l, l <> headers o -> heap w1 !! l = heap w !! l)
  /\ forall calls,
       let w2 := send_all network self calls w in
       instance_at w2 self = Some o
       /\ exists d2, headers_of w2 self = Some d2
            /\ d2 !! "Authorization" = d !! "Authorization".
Proof.
  intros Hc w1.
  pose proof (send_client network _ _ _ c _ Hc) as Hc1. fold w1 in Hc1.
  split; [by eapply instance_at_client|].
  split.
  { exists (headers_after c d). split; [by eapply headers_of_client|].
    split; [by apply headers_after_other|].
    intros k Hk. apply headers_after_other; intros ->; apply Hk; set_solver. }
  split.
  { intros l Hl. subst w1. destruct Hc as [Ho Hd].
    rewrite (send_spec _ _ _ _ _ _ Ho Hd). cbn [snd heap]. by rewrite lookup_insert_ne. }
  intros calls w2.
  destruct (send_all_spec network self _ calls _ _ Hc) as (Hc2 & _). fold w2 in Hc2.
  split; [by eapply instance_at_client|].
  exists (headers_after_all calls d). split; [by eapply headers_of_client|].
  by apply headers_after_all_other.
Qed.

(** C10 on the sample client. *)
Lemma send_preserves_configuration_sample :
  client sample_world 2 sample_client ∅
  /\ instance_at (send times_out 2 tagged sample_world).2 2 = Some sample_client
  /\ exists d1, headers_of (send times_out 2 tagged sample_world).2 2 = Some d1
       /\ d1 !! "Authorization" = None.
Proof.
  assert (Hc : client sample_world 2 sample_client ∅) by (split; reflexivity).
  split; [exact Hc|].
  destruct (send_preserves_configuration times_out 2 sample_client ∅ tagged
              sample_world Hc) as (Hi & (d1 & Hd1 & Ha & _) & _).
  split; [exact Hi|]. exists d1. split; [exact Hd1 | exact Ha].
Defined.

(** * Beyond the claims *)

(** ** When construction fails *)

Lemma utf8_encode_char_Ok_scalar c b : utf8_encode_char c = Ok b -> scalar c = true.
Proof.
  unfold utf8_encode_char, scalar, is_surrogate.
  destruct (N.ltb_spec c 0x80); [lia|]. destruct (N.ltb_spec c 0x800); [lia|].
  destruct (N.ltb_spec c 0x10000).
  - destruct ((0xD800 <=? c) && (c <=? 0xDFFF)) eqn:E; [done|lia].
  - destruct (N.ltb_spec c 0x110000); [lia|done].
Qed.

Lemma utf8_encode_char_Raise c e : utf8_encode_char c = Raise e -> e = UnicodeEncodeError.
Proof.
  unfold utf8_encode_char.
  repeat match goal with |- context [if ?b then _ else _] => destruct b end; congruence.
Qed.

Lemma str_encode_Ok_text s b : str_encode s = Ok b -> unicode_text s.
Proof.
  revert b. induction s as [|c s IH]; intros b; cbn [str_encode]; [constructor|].
  destruct (utf8_encode_char c) as [bc|] eqn:Hc; [|done]. cbn [rbind].
  destruct (str_encode s) as [bs|] eqn:Hs; [|done]. intros _.
  constructor; [by eapply utf8_encode_char_Ok_scalar | by eapply IH].
Qed.

Lemma str_encode_Raise s e : str_encode s = Raise e -> e = UnicodeEncodeError.
Proof.
  induction s as [|c s IH]; cbn [str_encode]; [done|].
  destruct (utf8_encode_char c) as [bc|e'] eqn:Hc; cbn [rbind].
  - destruct (str_encode s) as [bs|e'']; cbn [rbind]; [done|]. intros [= <-]. by apply IH.
  - intros [= <-]. by eapply utf8_encode_char_Raise.
Qed.

Lemma set_auth_Raise user password e :
  __set_auth user password = Raise e ->
  e = UnicodeEncodeError
  /\ exists u p, user = Some u /\ password = Some p /\ ~ unicode_text (u ++ lit ":" ++ p).
Proof.
  destruct user as [u|], password as [p|]; try done.
  rewrite set_auth_both. destruct (str_encode _) as [b|e'] eqn:Hb; [done|].
  cbn [rbind]. intros [= <-]. split; [by eapply str_encode_Raise|].
  exists u, p. do 2 (split; [done|]). intros Ht.
  destruct (str_encode_ok _ Ht) as [b' Hb']. congruence.
Qed.

(** X1: the construction returns a client exactly when, both credentials
    being given, both are texts that UTF-8 can encode (it always returns
    when a credential is None). When it raises, the exception is
    UnicodeEncodeError and the world is as it was: no object is left and no
    request was issued. *)
Theorem construction_raises_only_on_unencodable_credentials
    server_url default_topic user password w0 :
  ((exists self w, __init__ server_url default_topic user password w0 = (Ok self, w))
   <-> forall u p, user = Some u -> password = Some p ->
         unicode_text u /\ unicode_text p)
  /\ forall e w, __init__ server_url default_topic user password w0 = (Raise e, w) ->
       e = UnicodeEncodeError /\ w = w0.
Proof.
  split; [split|].
  - intros (self & w & Hinit) u p -> ->.
    rewrite init_spec, set_auth_both in Hinit.
    destruct (str_encode (u ++ lit ":" ++ p)) as [b|] eqn:Hb; [|done].
    apply str_encode_Ok_text in Hb. apply Forall_app in Hb as [Hu Hp].
    apply Forall_app in Hp as [_ Hp]. done.
  - intros Htext. destruct (__set_auth user password) as [auth|e] eqn:Ha.
    + destruct (init_client server_url default_topic _ _ _ w0 Ha) as (self & w & _ & Hinit & _).
      eauto.
    + apply set_auth_Raise in Ha as (_ & u & p & -> & -> & Hn).
      destruct (Htext u p eq_refl eq_refl) as [Hu Hp]. destruct Hn.
      auto using unicode_text_app, unicode_text_lit_colon.
  - intros e w Hinit. rewrite init_spec in Hinit.
    destruct (__set_auth user password) as [auth|e'] eqn:Ha; [done|].
    injection Hinit as <- <-. split; [|done]. by apply set_auth_Raise in Ha as [-> _].
Qed.

(** ** What construction touches *)

(** X2: the construction issues no request and changes no object that
    exists. The instance it returns is new, holds the server URL and the
    default topic it was given, and refers to a headers dict that is new
    too, and holds the Authorization entry at most. *)
Theorem construction_issues_no_request_and_shares_nothing
    s_url d_topic user password w0 :
  let out := __init__ s_url d_topic user password w0 in
  sent out.2 = sent w0
  /\ (forall l, is_Some (heap w0 !! l) -> heap out.2 !! l = heap w0 !! l)
  /\ forall self, out.1 = Ok self ->
       heap w0 !! self = None
       /\ exists o, instance_at out.2 self = Some o
            /\ server_url o = s_url
            /\ default_topic o = d_topic
            /\ heap w0 !! headers o = None
            /\ headers o <> self
            /\ dict_at out.2 (headers o) = Some (base_headers (_auth o)).
Proof.
  cbv zeta. destruct (__set_auth user password) as [auth|e] eqn:Ha.
  - destruct (init_client s_url d_topic _ _ _ w0 Ha)
      as (self & w & h & -> & [Ho Hd] & Hsent & Hself & Hh & Hframe).
    cbn [fst snd]. split; [done|]. split.
    + intros l [x Hl]. apply Hframe; intros ->; congruence.
    + intros ? [= <-]. split; [done|]. eexists. split; [by apply instance_at_Some|].
      cbn [server_url default_topic headers _auth] in *.
      do 3 (split; [done|]). split; [intros ->; congruence|]. by apply dict_at_Some.
  - rewrite init_spec, Ha. cbn [fst snd]. by repeat split.
Qed.

(** X3: two clients built one after the other are two objects with two
    headers mappings: whatever is sent on one of them, the attributes and
    the headers mapping of the other stay as they were. *)
Theorem clients_have_separate_headers network
    url1 topic1 user1 password1 url2 topic2 user2 password2 w0 a w1 b w2 calls :
  __init__ url1 topic1 user1 password1 w0 = (Ok a, w1) ->
  __init__ url2 topic2 user2 password2 w1 = (Ok b, w2) ->
  a <> b
  /\ (exists d, headers_of w2 b = Some d
        /\ headers_of (send_all network a calls w2) b = Some d)
  /\ instance_at (send_all network a calls w2) b = instance_at w2 b
  /\ (exists d, headers_of w2 a = Some d
        /\ headers_of (send_all network b calls w2) a = Some d)
  /\ instance_at (send_all network b calls w2) a = instance_at w2 a.
Proof.
  intros H1 H2.
  destruct (__set_auth user1 password1) as [auth1|e] eqn:Ha1;
    [|by rewrite init_spec, Ha1 in H1].
  destruct (__set_auth user2 password2) as [auth2|e] eqn:Ha2;
    [|by rewrite init_spec, Ha2 in H2].
  destruct (init_client url1 topic1 _ _ _ w0 Ha1)
    as (a' & w1' & ha & E1 & [Hoa Hda] & _).
  rewrite H1 in E1. injection E1 as <- <-.
  destruct (init_client url2 topic2 _ _ _ w1 Ha2)
    as (b' & w2' & hb & E2 & [Hob Hdb] & _ & Hb & Hhb & Hframe).
  rewrite H2 in E2. injection E2 as <- <-.
  cbn [headers] in *.
  assert (Nab : a <> b) by (intros ->; congruence).
  assert (Nahb : a <> hb) by (intros ->; congruence).
  assert (Nhab : ha <> b) by (intros ->; congruence).
  assert (Nhahb : ha <> hb) by (intros ->; congruence).
  assert (Hoa2 : heap w2 !! a = heap w1 !! a) by (by apply Hframe).
  assert (Hda2 : heap w2 !! ha = heap w1 !! ha) by (by apply Hframe).
  rewrite Hoa in Hoa2. rewrite Hda in Hda2.
  set (oa := {| server_url := url1; default_topic := topic1; _auth := auth1; headers := ha |}) in *.
  set (ob := {| server_url := url2; default_topic := topic2; _auth := auth2; headers := hb |}) in *.
  assert (Ca : client w2 a oa (base_headers auth1)) by done.
  assert (Cb : client w2 b ob (base_headers auth2)) by done.
  destruct (send_all_spec network a oa calls _ _ Ca) as (_ & _ & Fa).
  destruct (send_all_spec network b ob calls _ _ Cb) as (_ & _ & Fb).
  cbn [headers] in Fa, Fb.
  split; [done|]. split; [|split; [|split]].
  - exists (base_headers auth2). split; [by eapply headers_of_client|].
    apply headers_of_Some. exists ob. cbn [headers].
    by rewrite !Fa by done.
  - unfold instance_at. by rewrite Fa by done.
  - exists (base_headers auth1). split; [by eapply headers_of_client|].
    apply headers_of_Some. exists oa. cbn [headers].
    by rewrite !Fb by done.
  - unfold instance_at. by rewrite Fb by done.
Qed.

(** X3 on the sample client and a second client built next to it. *)
Lemma clients_have_separate_headers_sample :
  __init__ (lit "https://ntfy.sh/") (lit "alerts") None None empty_world
  = (Ok 2%positive, sample_world)
  /\ __init__ (lit "https://ntfy.example/") (lit "ops")
       (Some (lit "bob")) (Some (lit "secret")) sample_world
     = (Ok 4%positive, two_clients_world)
  /\ headers_of (send_all (answers 200) 2 [tagged; disk_full] two_clients_world) 4
     = headers_of two_clients_world 4
  /\ headers_of (send_all times_out 4 [tagged] two_clients_world) 2
     = headers_of two_clients_world 2.
Proof.
  assert (H1 : __init__ (lit "https://ntfy.sh/") (lit "alerts") None None empty_world
               = (Ok 2%positive, sample_world)) by (vm_compute; reflexivity).
  assert (H2 : __init__ (lit "https://ntfy.example/") (lit "ops")
                 (Some (lit "bob")) (Some (lit "secret")) sample_world
               = (Ok 4%positive, two_clients_world)) by (vm_compute; reflexivity).
  split; [exact H1|]. split; [exact H2|]. split.
  - destruct (clients_have_separate_headers (answers 200) _ _ _ _ _ _ _ _ _ _ _ _ _
                [tagged; disk_full] H1 H2) as (_ & (d & Hd & Hd') & _).
    exact (eq_trans Hd' (eq_sym Hd)).
  - destruct (clients_have_separate_headers times_out _ _ _ _ _ _ _ _ _ _ _ _ _
                [tagged] H1 H2) as (_ & _ & _ & (d & Hd & Hd') & _).
    exact (eq_trans Hd' (eq_sym Hd)).
Defined.

(** ** Runs of calls, request by request *)

Lemma headers_after_all_snoc cs c d :
  headers_after_all (cs ++ [c]) d = headers_after c (headers_after_all cs d).
Proof. revert d. induction cs as [|c' cs IH]; intros d; cbn; [done | by rewrite IH]. Qed.

Lemma requests_of_lookup o cs : forall d i c,
  cs !! i = Some c ->
  requests_of o cs d !! i = Some (request_of o c (headers_after_all (take i cs) d)).
Proof.
  induction cs as [|c' cs IH]; intros d i c Hi; [done|].
  destruct i as [|i]; cbn in *.
  - by injection Hi as ->.
  - by apply IH.
Qed.

(** X4: a run of calls issues one request per call, in the order of the
    calls. The request of a call goes to the client's server URL, with the
    timeout, the title, the link and the message of that call, and with its
    topic or else the default topic, whatever the calls before it gave. *)
Theorem run_sends_each_call_once_in_order network self o d calls w :
  client w self o d ->
  length (sent_since w (send_all network self calls w)) = length calls
  /\ forall i c, calls !! i = Some c ->
       exists r, sent_since w (send_all network self calls w) !! i = Some r
         /\ url r = server_url o
         /\ timeout r = timeout_s c
         /\ req_headers r !! "Title" = Some (Some (title c))
         /\ req_headers r !! "Click" = Some (link_url c)
         /\ exists topic_send,
              data r = json_dumps [(lit "topic", topic_send); (lit "message", message c)]
              /\ (topic c = None -> topic_send = default_topic o)
              /\ (forall t, topic c = Some t -> topic_send = t).
Proof.
  intros Hc. rewrite (sent_since_send_all _ _ _ _ _ _ Hc).
  split; [apply length_requests_of|].
  intros i c Hi. eexists. split; [by apply requests_of_lookup|].
  cbn [request_of url timeout req_headers data].
  rewrite headers_after_Title, headers_after_Click.
  do 4 (split; [done|]). eexists. split; [done|].
  split; [by intros ->|by intros t ->].
Qed.

(** X4 on the sample client: the second request of a run of two calls. *)
Lemma run_sends_each_call_once_in_order_sample :
  client sample_world 2 sample_client ∅
  /\ exists r,
       sent_since sample_world (send_all (answers 200) 2 [tagged; retagged] sample_world)
         !! 1%nat = Some r
       /\ url r = lit "https://ntfy.sh/"
       /\ timeout r = 3%Z
       /\ req_headers r !! "Title" = Some (Some (lit "Restore"))
       /\ req_headers r !! "Click" = Some (Some (lit "https://ntfy.sh/r")).
Proof.
  assert (Hc : client sample_world 2 sample_client ∅) by (split; reflexivity).
  split; [exact Hc|].
  destruct (run_sends_each_call_once_in_order (answers 200) 2 sample_client ∅
              [tagged; retagged] sample_world Hc) as [_ Hrun].
  destruct (Hrun 1%nat retagged eq_refl) as (r & Hr & Hu & Ht & Hti & Hcl & _).
  exists r. split; [exact Hr|]. split; [exact Hu|]. split; [exact Ht|].
  split; [exact Hti | exact Hcl].
Defined.

(** X5: on a client built by [__init__], the Tags header of the request of
    a call is the tags argument most recently given, by that call or by a
    call before it, and is missing when none gave any; a later call with
    tags replaces the value. The same holds of Icon. *)
Theorem request_tags_are_the_last_given
    network s_url d_topic user password w0 self w calls :
  __init__ s_url d_topic user password w0 = (Ok self, w) ->
  forall i r, sent_since w (send_all network self calls w) !! i = Some r ->
    req_headers r !! "Tags" = Some <$> last_given tags (take (S i) calls)
    /\ req_headers r !! "Icon" = Some <$> last_given icon (take (S i) calls).
Proof.
  intros Hinit i r Hr.
  destruct (__set_auth user password) as [auth|e] eqn:Ha;
    [|by rewrite init_spec, Ha in Hinit].
  destruct (init_client s_url d_topic _ _ _ w0 Ha)
    as (self' & w' & h & Hinit' & Hc & _).
  rewrite Hinit in Hinit'. injection Hinit' as <- <-.
  rewrite (sent_since_send_all _ _ _ _ _ _ Hc) in Hr.
  assert (Hlen : (i < length calls)%nat).
  { apply lookup_lt_Some in Hr. by rewrite length_requests_of in Hr. }
  destruct (lookup_lt_is_Some_2 calls i Hlen) as [c Hi].
  rewrite (requests_of_lookup _ _ _ _ _ Hi) in Hr. injection Hr as <-.
  cbn [request_of req_headers].
  rewrite (take_S_r _ _ _ Hi), <- headers_after_all_snoc.
  rewrite headers_after_all_Tags, headers_after_all_Icon.
  assert (base_headers auth !! "Tags" = None) as -> by (destruct auth; by simplify_map_eq).
  assert (base_headers auth !! "Icon" = None) as -> by (destruct auth; by simplify_map_eq).
  split; by destruct (last_given _ _).
Qed.

(** X5 on the sample client: tags are kept by a call without tags and
    replaced by a call with other tags. *)
Lemma request_tags_are_the_last_given_sample :
  __init__ (lit "https://ntfy.sh/") (lit "alerts") None None empty_world
  = (Ok 2%positive, sample_world)
  /\ (exists r,
        sent_since sample_world
          (send_all (answers 200) 2 [tagged; disk_full; retagged] sample_world)
          !! 1%nat = Some r
        /\ req_headers r !! "Tags" = Some (Some (lit "warning")))
  /\ (exists r,
        sent_since sample_world
          (send_all (answers 200) 2 [tagged; disk_full; retagged] sample_world)
          !! 2%nat = Some r
        /\ req_headers r !! "Tags" = Some (Some (lit "tada"))).
Proof.
  assert (Hinit : __init__ (lit "https://ntfy.sh/") (lit "alerts") None None empty_world
                  = (Ok 2%positive, sample_world)) by (vm_compute; reflexivity).
  split; [exact Hinit|]. split.
  - destruct (sent_since sample_world
                (send_all (answers 200) 2 [tagged; disk_full; retagged] sample_world)
                !! 1%nat) as [r|] eqn:Hr; [|vm_compute in Hr; discriminate Hr].
    exists r. split; [reflexivity|].
    exact (proj1 (request_tags_are_the_last_given (answers 200) _ _ _ _ _ _ _
                    [tagged; disk_full; retagged] Hinit 1%nat r Hr)).
  - destruct (sent_since sample_world
                (send_all (answers 200) 2 [tagged; disk_full; retagged] sample_world)
                !! 2%nat) as [r|] eqn:Hr; [|vm_compute in Hr; discriminate Hr].
    exists r. split; [reflexivity|].
    exact (proj1 (request_tags_are_the_last_given (answers 200) _ _ _ _ _ _ _
                    [tagged; disk_full; retagged] Hinit 2%nat r Hr)).
Defined.

(** ** The names in the headers mapping *)

Lemma headers_after_lookup c d (k : string) :
  headers_after c d !! k =
    if decide (k = "Icon"%string) then
      match icon c with Some i => Some (Some i) | None => d !! k end
    else if decide (k = "Tags"%string) then
      match tags c with Some t => Some (Some t) | None => d !! k end
    else if decide (k = "Click"%string) then Some (link_url c)
    else if decide (k = "Title"%string) then Some (Some (title c))
    else d !! k.
Proof.
  unfold headers_after.
  destruct (tags c), (icon c); repeat case_decide; by simplify_map_eq.
Qed.

Lemma headers_after_keeps c d (k : string) :
  is_Some (d !! k) -> is_Some (headers_after c d !! k).
Proof.
  intros Hk. rewrite headers_after_lookup.
  repeat case_decide; try done; by destruct (icon c), (tags c).
Qed.

Lemma headers_after_adds c d (k : string) :
  is_Some (headers_after c d !! k) -> is_Some (d !! k) \/ k ∈ call_header_names.
Proof.
  rewrite headers_after_lookup. unfold call_header_names.
  repeat case_decide; subst; rewrite ?elem_of_cons; auto 6.
Qed.

Lemma headers_after_all_keeps cs (k : string) : forall d,
  is_Some (d !! k) -> is_Some (headers_after_all cs d !! k).
Proof.
  induction cs as [|c cs IH]; intros d Hk; cbn [headers_after_all]; [done|].
  by apply IH, headers_after_keeps.
Qed.

Lemma headers_after_all_adds cs (k : string) : forall d,
  is_Some (headers_after_all cs d !! k) -> is_Some (d !! k) \/ k ∈ call_header_names.
Proof.
  induction cs as [|c cs IH]; intros d Hk; cbn [headers_after_all] in Hk; [by left|].
  destruct (IH _ Hk) as [H|H]; [by apply headers_after_adds in H | by right].
Qed.

(** X6: the headers mapping of a client built by [__init__] only ever holds
    the names Authorization, Title, Click, Tags and Icon; Authorization is
    there exactly when both credentials were given, Title and Click from
    the first send on, and no send ever removes a name. *)
Theorem header_names_only_accumulate network s_url d_topic user password w0 self w calls :
  __init__ s_url d_topic user password w0 = (Ok self, w) ->
  exists d,
    headers_of (send_all network self calls w) self = Some d
    /\ (forall k : string, is_Some (d !! k) ->
          k = "Authorization"%string \/ k ∈ call_header_names)
    /\ (is_Some (d !! "Authorization") <-> is_Some user /\ is_Some password)
    /\ (calls <> [] -> is_Some (d !! "Title") /\ is_Some (d !! "Click"))
    /\ forall more, exists d',
         headers_of (send_all network self more (send_all network self calls w)) self
         = Some d'
         /\ forall k : string, is_Some (d !! k) -> is_Some (d' !! k).
Proof.
  intros Hinit.
  destruct (__set_auth user password) as [auth|e] eqn:Ha;
    [|by rewrite init_spec, Ha in Hinit].
  destruct (init_client s_url d_topic _ _ _ w0 Ha)
    as (self' & w' & h & Hinit' & Hc & _).
  rewrite Hinit in Hinit'. injection Hinit' as <- <-.
  destruct (send_all_spec network self _ calls _ _ Hc) as (Hc1 & _).
  exists (headers_after_all calls (base_headers auth)).
  split; [by eapply headers_of_client|]. split; [|split; [|split]].
  - intros k Hk. apply headers_after_all_adds in Hk as [Hk|Hk]; [|by right].
    left. destruct auth; cbn [base_headers] in Hk.
    + destruct (decide (k = "Authorization"%string)) as [->|Hne]; [done|].
      rewrite lookup_insert_ne, lookup_empty in Hk by done. by destruct Hk.
    + rewrite lookup_empty in Hk. by destruct Hk.
  - rewrite headers_after_all_other by done.
    pose proof (set_auth_None_iff _ _ _ Ha) as Hn.
    destruct auth as [a|]; cbn [base_headers].
    + rewrite lookup_insert_eq. split; [intros _|by eauto].
      destruct user, password; [by eauto|..]; destruct Hn as [_ Hn];
        by discriminate Hn; auto.
    + rewrite lookup_empty. split; [by intros []|].
      intros [[u ->] [p ->]]. destruct Hn as [Hn _]. by destruct (Hn eq_refl).
  - intros Hne. destruct calls as [|c calls _] using rev_ind; [done|].
    rewrite headers_after_all_snoc, headers_after_Title, headers_after_Click. eauto.
  - intros more.
    destruct (send_all_spec network self _ more _ _ Hc1) as (Hc2 & _).
    eexists. split; [by eapply headers_of_client|].
    intros k. apply headers_after_all_keeps.
Qed.

(** X6 on the sample client after one plain call. *)
Lemma header_names_only_accumulate_sample :
  __init__ (lit "https://ntfy.sh/") (lit "alerts") None None empty_world
  = (Ok 2%positive, sample_world)
  /\ exists d,
       headers_of (send_all (answers 200) 2 [disk_full] sample_world) 2 = Some d
       /\ ~ is_Some (d !! "Authorization")
       /\ is_Some (d !! "Title") /\ is_Some (d !! "Click").
Proof.
  assert (Hinit : __init__ (lit "https://ntfy.sh/") (lit "alerts") None None empty_world
                  = (Ok 2%positive, sample_world)) by (vm_compute; reflexivity).
  split; [exact Hinit|].
  destruct (header_names_only_accumulate (answers 200) _ _ _ _ _ _ _ [disk_full] Hinit)
    as (d & Hd & _ & Ha & Hfirst & _).
  exists d. split; [exact Hd|]. split.
  - intros H. apply Ha in H as [[u Hu] _]. discriminate Hu.
  - apply Hfirst. discriminate.
Defined.

(** ** Repeating a call, and overriding earlier ones *)

Lemma headers_after_idem c d : headers_after c (headers_after c d) = headers_after c d.
Proof.
  apply map_eq. intros k. rewrite !headers_after_lookup.
  repeat case_decide; try done; by destruct (icon c), (tags c).
Qed.

(** X7: sending the same call a second time right after the first leaves
    every object as the first send left it, and issues the same request
    again. *)
Theorem repeating_a_call_is_idempotent network self o d c w :
  client w self o d ->
  let w1 := (send network self c w).2 in
  let w2 := (send network self c w1).2 in
  heap w2 = heap w1 /\ sent_since w1 w2 = sent_since w w1.
Proof.
  intros Hc w1 w2.
  pose proof (send_client network _ _ _ c _ Hc) as Hc1. fold w1 in Hc1.
  subst w2. rewrite (sent_since_send _ _ _ _ _ _ Hc1).
  subst w1. rewrite (sent_since_send _ _ _ _ _ _ Hc).
  destruct Hc as [Ho Hd]. destruct Hc1 as [Ho1 Hd1].
  rewrite (send_spec _ _ _ _ _ _ Ho1 Hd1). cbn [snd heap].
  rewrite (send_spec _ _ _ _ _ _ Ho Hd). cbn [snd heap].
  rewrite insert_insert_eq, headers_after_idem. split; [done|].
  unfold request_of. by rewrite headers_after_idem.
Qed.

(** X7 on the sample client, for the call [tagged]. *)
Lemma repeating_a_call_is_idempotent_sample :
  client sample_world 2 sample_client ∅
  /\ let w1 := (send (answers 200) 2 tagged sample_world).2 in
     let w2 := (send (answers 200) 2 tagged w1).2 in
     heap w2 = heap w1 /\ sent_since w1 w2 = sent_since sample_world w1.
Proof.
  assert (Hc : client sample_world 2 sample_client ∅) by (split; reflexivity).
  split; [exact Hc|].
  exact (repeating_a_call_is_idempotent (answers 200) 2 sample_client ∅ tagged
           sample_world Hc).
Defined.

Lemma headers_after_overrides c d d' :
  is_Some (tags c) -> is_Some (icon c) ->
  (forall k : string, k ∉ call_header_names -> d !! k = d' !! k) ->
  headers_after c d = headers_after c d'.
Proof.
  intros [t Ht] [i Hi] Hother. apply map_eq. intros k.
  rewrite !headers_after_lookup, Ht, Hi.
  repeat case_decide; try done. apply Hother. unfold call_header_names.
  rewrite !elem_of_cons, elem_of_nil. tauto.
Qed.

(** X8: a call that gives both tags and an icon is not affected by the
    calls before it: its request, and the headers mapping it leaves, are
    those it would give on the client before any of these calls. *)
Theorem call_with_tags_and_icon_ignores_earlier_calls
    network self o d c earlier w :
  client w self o d ->
  is_Some (tags c) -> is_Some (icon c) ->
  let w1 := send_all network self earlier w in
  sent_since w1 (send network self c w1).2 = sent_since w (send network self c w).2
  /\ headers_of (send network self c w1).2 self = headers_of (send network self c w).2 self.
Proof.
  intros Hc Ht Hi w1.
  destruct (send_all_spec network self _ earlier _ _ Hc) as (Hc1 & _). fold w1 in Hc1.
  assert (E : headers_after c (headers_after_all earlier d) = headers_after c d).
  { apply headers_after_overrides; [done..|]. intros k Hk.
    apply headers_after_all_other; intros ->; apply Hk; unfold call_header_names;
      rewrite !elem_of_cons; tauto. }
  rewrite (sent_since_send _ _ _ _ _ _ Hc1), (sent_since_send _ _ _ _ _ _ Hc).
  rewrite (headers_of_client _ _ _ _ (send_client network _ _ _ c _ Hc1)).
  rewrite (headers_of_client _ _ _ _ (send_client network _ _ _ c _ Hc)).
  unfold request_of. by rewrite E.
Qed.

(** X8 on the sample client: [retagged] after [tagged] and a plain call. *)
Lemma call_with_tags_and_icon_ignores_earlier_calls_sample :
  client sample_world 2 sample_client ∅
  /\ is_Some (tags retagged) /\ is_Some (icon retagged)
  /\ let w1 := send_all times_out 2 [tagged; disk_full] sample_world in
     sent_since w1 (send times_out 2 retagged w1).2
     = sent_since sample_world (send times_out 2 retagged sample_world).2.
Proof.
  assert (Hc : client sample_world 2 sample_client ∅) by (split; reflexivity).
  assert (Ht : is_Some (tags retagged)) by (eexists; reflexivity).
  assert (Hi : is_Some (icon retagged)) by (eexists; reflexivity).
  split; [exact Hc|]. split; [exact Ht|]. split; [exact Hi|].
  exact (proj1 (call_with_tags_and_icon_ignores_earlier_calls times_out 2 sample_client ∅
                  retagged [tagged; disk_full] sample_world Hc Ht Hi)).
Defined.

(** ** The characters of the body *)

Lemma nth_Forall {A} (P : A -> Prop) (l : list A) (n : nat) (x : A) :
  Forall P l -> P x -> P (nth n l x).
Proof.
  intros Hl Hx. destruct (nth_in_or_default n l x) as [Hin| ->]; [|done].
  rewrite Forall_forall in Hl. by apply Hl, list_elem_of_In.
Qed.

Lemma hex_digit_printable d : printable (hex_digit d) = true.
Proof.
  unfold hex_digit.
  apply (nth_Forall (fun ch => printable ch = true)); [|done].
  vm_compute. by repeat constructor.
Qed.

Lemma u_escape_printable n : all_printable (u_escape n).
Proof.
  unfold u_escape, hex4. repeat (constructor; [first [apply hex_digit_printable | done]|]).
  constructor.
Qed.

Lemma escape_char_printable c : all_printable (escape_char c).
Proof.
  unfold escape_char.
  repeat match goal with
  | |- context [if ?x =? ?y then _ else _] => destruct (x =? y); [by repeat constructor|]
  end.
  destruct ((32 <=? c) && (c <=? 126)) eqn:Hp; [by repeat constructor|].
  repeat match goal with
  | |- context [if ?x =? ?y then _ else _] => destruct (x =? y); [by repeat constructor|]
  end.
  destruct (c <? 0x10000); [apply u_escape_printable|].
  cbv zeta. apply Forall_app; split; apply u_escape_printable.
Qed.

Lemma encode_basestring_ascii_printable s : all_printable (encode_basestring_ascii s).
Proof.
  unfold encode_basestring_ascii. constructor; [done|].
  apply Forall_app; split; [|by repeat constructor].
  induction s as [|c s IH]; cbn [fmap list_fmap concat]; [constructor|].
  apply Forall_app; split; [apply escape_char_printable | apply IH].
Qed.

Lemma join_printable sep parts :
  all_printable sep -> Forall all_printable parts -> all_printable (join sep parts).
Proof.
  intros Hsep. induction 1 as [|p ps Hp Hps IH]; cbn [join]; [constructor|].
  destruct ps; [done|]. apply Forall_app; split; [done|].
  apply Forall_app; split; [done | apply IH].
Qed.

Lemma json_dumps_printable d : all_printable (json_dumps d).
Proof.
  unfold json_dumps. apply Forall_app; split; [by repeat constructor|].
  apply Forall_app; split; [|by repeat constructor].
  apply join_printable; [by repeat constructor|].
  apply Forall_fmap, Forall_forall. intros kv _. unfold compose, dumps_item.
  apply Forall_app; split; [apply encode_basestring_ascii_printable|].
  apply Forall_app; split; [by repeat constructor | apply encode_basestring_ascii_printable].
Qed.

(** X9: the body of every request consists of characters from space to
    tilde only, whatever code points the topic and the message hold: the
    rest is escaped. *)
Theorem body_is_printable_ascii network self o d c w :
  client w self o d ->
  exists r, sent_since w (send network self c w).2 = [r]
    /\ Forall (fun ch => 32 <= ch <= 126) (data r).
Proof.
  intros Hc. eexists. split; [by eapply sent_since_send|].
  rewrite data_request_of. eapply Forall_impl; [apply json_dumps_printable|].
  cbn beta. unfold printable. lia.
Qed.

(** X9 on the sample client, for a message with an emoji, a line feed and
    an accented letter. *)
Lemma body_is_printable_ascii_sample :
  client sample_world 2 sample_client ∅
  /\ exists r,
       sent_since sample_world (send (answers 200) 2 emoji_call sample_world).2 = [r]
       /\ Forall (fun ch => 32 <= ch <= 126) (data r)
       /\ data r = dq (lit "{'topic': 'alerts', 'message': '\ud83d\ude00\n\u00e9'}").
Proof.
  assert (Hc : client sample_world 2 sample_client ∅) by (split; reflexivity).
  split; [exact Hc|].
  destruct (body_is_printable_ascii (answers 200) 2 sample_client ∅ emoji_call
              sample_world Hc) as (r & Hr & Hall).
  exists r. split; [exact Hr|]. split; [exact Hall|].
  rewrite (sent_since_send _ _ _ _ _ _ Hc) in Hr. injection Hr as <-.
  vm_compute. reflexivity.
Defined.

(** ** The value of the Authorization header *)

Lemma b64encode_Forall (P : N -> Prop) bs :
  (forall i, P (b64_char i)) -> P b64_pad -> Forall P (b64encode bs).
Proof.
  intros Hc Hp.
  induction bs as [|a|a b|a b c r IH] using list_ind3; cbn [b64encode];
    repeat (constructor; [first [apply Hc | done]|]); done.
Qed.

Lemma b64_char_symbol i : b64_char i ∈ b64_pad :: b64_alphabet.
Proof.
  unfold b64_char.
  destruct (nth_in_or_default (N.to_nat i) b64_alphabet b64_pad) as [Hin| ->].
  - right. by apply list_elem_of_In.
  - left.
Qed.

Lemma b64_symbol_printable ch : ch ∈ b64_pad :: b64_alphabet -> 32 <= ch <= 126.
Proof.
  assert (H : Forall (fun x => printable x = true) (b64_pad :: b64_alphabet))
    by (vm_compute; by repeat constructor).
  rewrite Forall_forall in H. intros Hch. apply H in Hch. unfold printable in Hch. lia.
Qed.

Lemma length_b64encode bs :
  length (b64encode bs) = (4 * ((length bs + 2) / 3))%nat.
Proof.
  induction bs as [|a|a b|a b c r IH] using list_ind3; cbn [b64encode length];
    [done..|].
  rewrite IH. replace (S (S (S (length r))) + 2)%nat with (1 * 3 + (length r + 2))%nat by lia.
  rewrite Nat.div_add_l by lia. lia.
Qed.

Lemma utf8_encode_char_bytes c b :
  utf8_encode_char c = Ok b -> Forall (fun x => x < 256) b.
Proof.
  intros Hb. pose proof (utf8_encode_char_Ok_scalar _ _ Hb) as Hc.
  apply scalar_bounds in Hc as [Hc _]. revert Hb. unfold utf8_encode_char.
  destruct (utf8_bytes c Hc) as (E1 & E2 & E3 & E4 & E5 & E6).
  destruct (N.ltb_spec c 0x80); [intros [= <-]; repeat constructor; lia|].
  destruct (N.ltb_spec c 0x800).
  { intros [= <-]. rewrite E1, E4 by done. repeat constructor; euclid. }
  destruct (N.ltb_spec c 0x10000).
  { destruct (is_surrogate c); [done|]. intros [= <-].
    rewrite E1, E2, E5 by done. repeat constructor; euclid. }
  destruct (N.ltb_spec c 0x110000); [|done].
  intros [= <-]. rewrite E1, E2, E3, E6. repeat constructor; euclid.
Qed.

Lemma str_encode_bytes s b : str_encode s = Ok b -> Forall (fun x => x < 256) b.
Proof.
  revert b. induction s as [|c s IH]; intros b; cbn [str_encode].
  - intros [= <-]. constructor.
  - destruct (utf8_encode_char c) as [bc|] eqn:Hc; [|done]. cbn [rbind].
    destruct (str_encode s) as [bs|]; [|done]. intros [= <-].
    apply Forall_app; split; [by eapply utf8_encode_char_bytes | by apply IH].
Qed.

Lemma init_with_credentials s_url d_topic user password w0 self w :
  __init__ s_url d_topic (Some user) (Some password) w0 = (Ok self, w) ->
  exists b o,
    str_encode (user ++ lit ":" ++ password) = Ok b
    /\ client w self o (base_headers (Some (lit "Basic " ++ b64encode b))).
Proof.
  intros Hinit.
  destruct (str_encode (user ++ lit ":" ++ password)) as [b|e] eqn:Hb;
    [|by rewrite init_spec, set_auth_both, Hb in Hinit].
  assert (Ha : __set_auth (Some user) (Some password)
               = Ok (Some (lit "Basic " ++ b64encode b)))
    by (by rewrite set_auth_both, Hb).
  destruct (init_client s_url d_topic _ _ _ w0 Ha)
    as (self' & w' & h & Hinit' & Hc & _).
  rewrite Hinit in Hinit'. injection Hinit' as <- <-. eauto.
Qed.

Lemma requests_carry_authorization network self o a calls w :
  client w self o (base_headers (Some a)) ->
  Forall (fun r => req_headers r !! "Authorization" = Some (Some a))
    (sent_since w (send_all network self calls w)).
Proof.
  intros Hc. rewrite (sent_since_send_all _ _ _ _ _ _ Hc).
  eapply Forall_impl; [by apply (requests_of_other _ "Authorization")|].
  cbn beta. intros r ->. by simplify_map_eq.
Qed.

(** X10: the Authorization value built from a username and a password is
    "Basic " followed by a payload of 4 * ceil(n / 3) characters, n the
    number of UTF-8 bytes of "username:password", all of them letters,
    digits, plus, slash or the equals sign. No control character or line
    break of a credential reaches the header. *)
Theorem authorization_value_is_header_safe network s_url d_topic user password w0 self w :
  __init__ s_url d_topic (Some user) (Some password) w0 = (Ok self, w) ->
  exists b payload,
    str_encode (user ++ lit ":" ++ password) = Ok b
    /\ length payload = (4 * ((length b + 2) / 3))%nat
    /\ Forall (fun ch => ch ∈ b64_pad :: b64_alphabet) payload
    /\ Forall (fun ch => 32 <= ch <= 126) (lit "Basic " ++ payload)
    /\ forall calls,
         Forall (fun r => req_headers r !! "Authorization"
                          = Some (Some (lit "Basic " ++ payload)))
           (sent_since w (send_all network self calls w)).
Proof.
  intros Hinit. destruct (init_with_credentials _ _ _ _ _ _ _ Hinit) as (b & o & Hb & Hc).
  exists b, (b64encode b). split; [done|]. split; [apply length_b64encode|].
  assert (Hsym : Forall (fun ch => ch ∈ b64_pad :: b64_alphabet) (b64encode b)).
  { apply b64encode_Forall; [apply b64_char_symbol | left]. }
  split; [done|]. split.
  - apply Forall_app; split.
    { change (lit "Basic ") with [66; 97; 115; 105; 99; 32]. repeat constructor; lia. }
    eapply Forall_impl; [exact Hsym|]. apply b64_symbol_printable.
  - intros calls. by eapply requests_carry_authorization.
Qed.

(** X10 for bob and secret: ten bytes, a payload of sixteen characters. *)
Lemma authorization_value_is_header_safe_bob :
  __init__ (lit "https://ntfy.sh/") (lit "alerts")
    (Some (lit "bob")) (Some (lit "secret")) empty_world = (Ok 2%positive, bob_world)
  /\ exists payload,
       length payload = 16%nat
       /\ Forall (fun ch => 32 <= ch <= 126) (lit "Basic " ++ payload)
       /\ Forall (fun r => req_headers r !! "Authorization"
                           = Some (Some (lit "Basic " ++ payload)))
            (sent_since bob_world (send_all times_out 2 [tagged; disk_full] bob_world)).
Proof.
  assert (Hinit : __init__ (lit "https://ntfy.sh/") (lit "alerts")
                    (Some (lit "bob")) (Some (lit "secret")) empty_world
                  = (Ok 2%positive, bob_world)) by (vm_compute; reflexivity).
  split; [exact Hinit|].
  destruct (authorization_value_is_header_safe times_out _ _ _ _ _ _ _ Hinit)
    as (b & payload & Hb & Hlen & _ & Hsafe & Hsent).
  exists payload. vm_compute in Hb. injection Hb as <-.
  split; [exact Hlen|]. split; [exact Hsafe | exact (Hsent _)].
Defined.

(** X11: the Authorization header can be read back: decoding its payload
    from base64 and then from UTF-8 gives "username:password". *)
Theorem authorization_decodes_to_the_credentials s_url d_topic user password w0 self w :
  __init__ s_url d_topic (Some user) (Some password) w0 = (Ok self, w) ->
  exists d payload b,
    headers_of w self = Some d
    /\ d !! "Authorization" = Some (Some (lit "Basic " ++ payload))
    /\ b64decode payload = Some b
    /\ bytes_decode b = Ok (user ++ lit ":" ++ password).
Proof.
  intros Hinit. destruct (init_with_credentials _ _ _ _ _ _ _ Hinit) as (b & o & Hb & Hc).
  exists (base_headers (Some (lit "Basic " ++ b64encode b))), (b64encode b), b.
  split; [by eapply headers_of_client|]. split; [by simplify_map_eq|].
  split; [by eapply b64decode_encode, str_encode_bytes | by apply bytes_decode_encode].
Qed.

(** X11 for bob and secret. *)
Lemma authorization_decodes_to_the_credentials_bob :
  __init__ (lit "https://ntfy.sh/") (lit "alerts")
    (Some (lit "bob")) (Some (lit "secret")) empty_world = (Ok 2%positive, bob_world)
  /\ exists d payload b,
       headers_of bob_world 2 = Some d
       /\ d !! "Authorization" = Some (Some (lit "Basic " ++ payload))
       /\ b64decode payload = Some b
       /\ bytes_decode b = Ok (lit "bob:secret").
Proof.
  assert (Hinit : __init__ (lit "https://ntfy.sh/") (lit "alerts")
                    (Some (lit "bob")) (Some (lit "secret")) empty_world
                  = (Ok 2%positive, bob_world)) by (vm_compute; reflexivity).
  split; [exact Hinit|].
  exact (authorization_decodes_to_the_credentials _ _ _ _ _ _ _ Hinit).
Defined.

Lemma split_at_first_colon u1 p1 : forall u2 p2,
  no_colon u1 -> no_colon u2 -> u1 ++ 58 :: p1 = u2 ++ 58 :: p2 -> u1 = u2 /\ p1 = p2.
Proof.
  unfold no_colon. induction u1 as [|x u1 IH]; intros [|y u2] p2 H1 H2; cbn [app].
  - by intros [= ->].
  - intros [= <- _]. destruct H2. left.
  - intros [= -> _]. destruct H1. left.
  - intros [= -> E]. destruct (IH u2 p2) as [-> ->]; [| |done|done].
    + intros Hin. apply H1. by right.
    + intros Hin. apply H2. by right.
Qed.

Lemma set_auth_value user password a :
  __set_auth (Some user) (Some password) = Ok a ->
  exists b, str_encode (user ++ lit ":" ++ password) = Ok b
            /\ a = Some (lit "Basic " ++ b64encode b).
Proof.
  rewrite set_auth_both. destruct (str_encode _) as [b|]; [|done].
  intros [= <-]. eauto.
Qed.

(** X12: two pairs of credentials get the same Authorization value exactly
    when their strings "username:password" are equal. So credentials whose
    usernames hold no colon get different values unless they are equal,
    while a colon in a username makes the value ambiguous. *)
Theorem authorization_identifies_user_colon_password u1 p1 u2 p2 a :
  __set_auth (Some u1) (Some p1) = Ok a ->
  (__set_auth (Some u2) (Some p2) = Ok a
   <-> u1 ++ lit ":" ++ p1 = u2 ++ lit ":" ++ p2)
  /\ (no_colon u1 -> no_colon u2 ->
      __set_auth (Some u2) (Some p2) = Ok a -> u1 = u2 /\ p1 = p2).
Proof.
  intros H1.
  assert (Hiff : __set_auth (Some u2) (Some p2) = Ok a
                 <-> u1 ++ lit ":" ++ p1 = u2 ++ lit ":" ++ p2).
  { split.
    - intros H2.
      destruct (set_auth_value _ _ _ H1) as (b1 & Hb1 & ->).
      destruct (set_auth_value _ _ _ H2) as (b2 & Hb2 & [= E]).
      assert (b1 = b2).
      { apply (f_equal b64decode) in E.
        rewrite !b64decode_encode in E by (by eapply str_encode_bytes). congruence. }
      subst b2. apply bytes_decode_encode in Hb1, Hb2. congruence.
    - intros E. rewrite set_auth_both in *. by rewrite <- E. }
  split; [done|]. intros N1 N2 H2. apply Hiff in H2.
  by apply split_at_first_colon.
Qed.

(** X12 where it bites: the user a:b with password c and the user a with
    password b:c get the same value. *)
Lemma authorization_identifies_user_colon_password_sample :
  __set_auth (Some (lit "a:b")) (Some (lit "c")) = Ok (Some (lit "Basic YTpiOmM="))
  /\ __set_auth (Some (lit "a")) (Some (lit "b:c")) = Ok (Some (lit "Basic YTpiOmM=")).
Proof.
  assert (H1 : __set_auth (Some (lit "a:b")) (Some (lit "c"))
               = Ok (Some (lit "Basic YTpiOmM="))) by (vm_compute; reflexivity).
  split; [exact H1|].
  apply (proj1 (authorization_identifies_user_colon_password
                  (lit "a:b") (lit "c") (lit "a") (lit "b:c") _ H1)).
  vm_compute. reflexivity.
Defined.
